(** * pyzfs: the nvlist codec and the error-translation engine

    A shallow embedding of [libzfs_core/_constants.py],
    [libzfs_core/_error_translation.py] and [libzfs_core/nvlist.py].

    Python values are an inductive type, Python exceptions are values of
    [exn], and a call either returns or raises ([res]).  The C library
    behind [_lib] is a small state (a heap of containers, the next free
    handle and a script of statuses for the calls that can fail); code that
    calls it is written in a state-and-exception monad. *)

From Stdlib Require Import ZArith List Ascii String Bool Lia.
From stdpp Require Import base option list gmap.
Import ListNotations.
Open Scope Z_scope.
Open Scope string_scope.
Set Warnings "-register-all".

(** ** Constants *)

(** [_constants.py]: [MAXNAMELEN = 255]. *)
Definition MAXNAMELEN : nat := 255.

(** The [errno] values the classifiers compare against (Linux numbering). *)
Definition ENOENT : Z := 2.
Definition E2BIG : Z := 7.
Definition EBUSY : Z := 16.
Definition EEXIST : Z := 17.
Definition EXDEV : Z := 18.
Definition EINVAL : Z := 22.
Definition ENOTSUP : Z := 95.

(** ** NameSyntax ([_error_translation.py], lines 385-411) *)

(** [s.split(sep)] for a one-character separator: never empty, and the
    empty string splits into one empty component. *)
Fixpoint split (sep : ascii) (s : string) : list string :=
  match s with
  | EmptyString => [EmptyString]
  | String c r =>
      if Ascii.eqb c sep then EmptyString :: split sep r
      else match split sep r with
           | h :: t => String c h :: t
           | [] => [String c EmptyString]
           end
  end.

(** [re.split('[...]', name, 1)[0]]: the text before the first character
    of the class, the whole name when there is none. *)
Fixpoint before_first (is_sep : ascii -> bool) (s : string) : string :=
  match s with
  | EmptyString => EmptyString
  | String c r => if is_sep c then EmptyString else String c (before_first is_sep r)
  end.

Definition _pool_name (name : string) : string :=
  before_first (fun c => Ascii.eqb c "/" || Ascii.eqb c "@" || Ascii.eqb c "#")%char name.

Definition _fs_name (name : string) : string :=
  before_first (fun c => Ascii.eqb c "@" || Ascii.eqb c "#")%char name.

(** [string.ascii_letters] and [string.digits]. *)
Definition ascii_letters : string :=
  "abcdefghijklmnopqrstuvwxyzABCDEFGHIJKLMNOPQRSTUVWXYZ".

Definition digits : string := "0123456789".

(** [x in s] for a character [x]. *)
Fixpoint char_in (x : ascii) (s : string) : bool :=
  match s with
  | EmptyString => false
  | String c r => Ascii.eqb x c || char_in x r
  end.

(** [x in allowed], with [allowed = string.ascii_letters + string.digits + '-_.: ']. *)
Definition allowed (x : ascii) : bool :=
  char_in x (ascii_letters ++ digits ++ "-_.: ").

Fixpoint all_chars (p : ascii -> bool) (s : string) : bool :=
  match s with
  | EmptyString => true
  | String c r => p c && all_chars p r
  end.

(** [bool(s)] for a string. *)
Definition truthy (s : string) : bool :=
  match s with EmptyString => false | _ => true end.

Definition _is_valid_name_component (component : string) : bool :=
  truthy component && all_chars allowed component.

Definition _is_valid_fs_name (name : string) : bool :=
  truthy name && forallb _is_valid_name_component (split "/" name).

Definition _is_valid_snap_name (name : string) : bool :=
  match split "@" name with
  | [fs; snap] => _is_valid_fs_name fs && _is_valid_name_component snap
  | _ => false
  end.

Definition _is_valid_bmark_name (name : string) : bool :=
  match split "#" name with
  | [fs; bmark] => _is_valid_fs_name fs && _is_valid_name_component bmark
  | _ => false
  end.

(** ** Failure values *)

(** Modelled from the spec: the module [exceptions], imported as
    [lzc_exc], is not among the sources.  Its classes are the failure
    kinds of section 7 of the specification under the names the
    classifiers use, with [genericException] for the wrapped status; no
    attribute of it is called [lzc_exc].  A value is an instance with its
    constructor arguments; a name argument may be [None]. *)
Inductive failure : Type :=
  | NameInvalid (name : option string)
  | NameTooLong (name : option string)
  | PropertyInvalid (name : option string)
  | PoolsDiffer (name : option string)
  | FilesystemExists (name : option string)
  | ParentNotFound (name : option string)
  | DatasetNotFound (name : option string)
  | FilesystemNotFound (name : option string)
  | SnapshotNotFound (name : option string)
  | SnapshotExists (name : option string)
  | DuplicateSnapshots (name : option string)
  | HoldNotFound (name : option string)
  | FeatureNotSupported (name : option string)
  | genericException (ret : Z) (name : option string) (msg : string).

(** What a per-item mapper can hand back: a failure, a one-element tuple
    holding a failure, or [None]. *)
Inductive pyobj : Type :=
  | ObjNone
  | ObjFailure (f : failure)
  | ObjTuple1 (f : failure).

(** The batch failure classes that [_handleErrList] is called with. *)
Inductive batch_class : Type :=
  | SnapshotFailure
  | HoldReleaseFailure.

Inductive exn : Type :=
  | Lzc (f : failure)
  | LzcBatch (cls : batch_class) (errors : list pyobj) (suppressed_count : Z)
  | TypeError (msg : string)
  | MemoryError (msg : string)
  | RuntimeError (msg : string)
  | NameError (name : string)
  | AttributeError (attr : string)
  | IndexError
  | KeyError.

Inductive res (A : Type) : Type :=
  | Ok (a : A)
  | Raise (e : exn).
Arguments Ok {A} a.
Arguments Raise {A} e.

(** [d.get(ret, default)] for the small tables of the classifiers. *)
Fixpoint table_get (table : list (Z * failure)) (ret : Z) (default : failure) : failure :=
  match table with
  | [] => default
  | (code, f) :: rest => if Z.eqb ret code then f else table_get rest ret default
  end.

(** ** ErrorClassifier ([_error_translation.py]) *)

(** Lines 11-25; the parameters [is_zvol] and [props] are not used by the
    function and are left out, as [props] is in the next ones. *)
Definition lzc_create_xlate_error (ret : Z) (name : string) : res unit :=
  if Z.eqb ret 0 then Ok tt
  else if Z.eqb ret EINVAL then
    if negb (_is_valid_fs_name name) then Raise (Lzc (NameInvalid (Some name)))
    else if (MAXNAMELEN <? String.length name)%nat then Raise (Lzc (NameTooLong (Some name)))
    else Raise (Lzc (PropertyInvalid (Some name)))
  else
    Raise (Lzc (table_get
      [(EEXIST, FilesystemExists (Some name)); (ENOENT, ParentNotFound (Some name))]
      ret (genericException ret (Some name) "Failed to create filesystem"))).

(** Lines 28-48. *)
Definition lzc_clone_xlate_error (ret : Z) (name origin : string) : res unit :=
  if Z.eqb ret 0 then Ok tt
  else if Z.eqb ret EINVAL then
    if negb (_is_valid_fs_name name) then Raise (Lzc (NameInvalid (Some name)))
    else if negb (_is_valid_snap_name origin) then Raise (Lzc (NameInvalid (Some origin)))
    else if (MAXNAMELEN <? String.length name)%nat then Raise (Lzc (NameTooLong (Some name)))
    else if (MAXNAMELEN <? String.length origin)%nat then Raise (Lzc (NameTooLong (Some origin)))
    else if negb (String.eqb (_pool_name name) (_pool_name origin))
      then Raise (Lzc (PoolsDiffer (Some name)))
    else Raise (Lzc (PropertyInvalid (Some name)))
  else
    Raise (Lzc (table_get
      [(EEXIST, FilesystemExists (Some name)); (ENOENT, DatasetNotFound (Some name))]
      ret (genericException ret (Some name) "Failed to create clone"))).

(** Lines 51-66.  The last line reads [lzc_exc.lzc_exc.genericException]:
    the lookup of [lzc_exc] inside the module [lzc_exc] comes first and
    fails, so no failure value is built. *)
Definition lzc_rollback_xlate_error (ret : Z) (name : string) : res unit :=
  if Z.eqb ret 0 then Ok tt
  else if Z.eqb ret EINVAL then
    if negb (_is_valid_fs_name name) then Raise (Lzc (NameInvalid (Some name)))
    else if (MAXNAMELEN <? String.length name)%nat then Raise (Lzc (NameTooLong (Some name)))
    else Raise (Lzc (SnapshotNotFound (Some name)))
  else if Z.eqb ret ENOENT then
    if negb (_is_valid_fs_name name) then Raise (Lzc (NameInvalid (Some name)))
    else Raise (Lzc (FilesystemNotFound (Some name)))
  else Raise (AttributeError "lzc_exc").

(** [errlist.pop(key, 0)]: the value under [key] (0 when missing) and the
    dictionary without it. *)
Fixpoint dict_lookup {V : Type} (key : string) (d : list (string * V)) : option V :=
  match d with
  | [] => None
  | (k, v) :: rest => if String.eqb k key then Some v else dict_lookup key rest
  end.

Definition dict_remove {V : Type} (key : string) (d : list (string * V)) : list (string * V) :=
  List.filter (fun kv => negb (String.eqb (fst kv) key)) d.

(** Collect the mapper's results in order, stopping at the first one
    that raises. *)
Fixpoint collect_errors (mapper : Z -> option string -> res pyobj)
    (items : list (string * Z)) : res (list pyobj) :=
  match items with
  | [] => Ok []
  | (name, err) :: rest =>
      match mapper err (Some name) with
      | Raise e => Raise e
      | Ok o =>
          match collect_errors mapper rest with
          | Raise e => Raise e
          | Ok os => Ok (o :: os)
          end
      end
  end.

(** Lines 365-382.  [errlist] is the decoded item map in iteration order,
    the out-of-band count included under ["N_MORE_ERRORS"]. *)
Definition _handleErrList (ret : Z) (errlist : list (string * Z)) (names : list string)
    (exception : batch_class) (mapper : Z -> option string -> res pyobj) : res unit :=
  if Z.eqb ret 0 then Ok tt
  else
    match errlist with
    | [] =>
        let name := match names with [n] => Some n | _ => None end in
        match mapper ret name with
        | Raise e => Raise e
        | Ok o => Raise (LzcBatch exception [o] 0)
        end
    | _ :: _ =>
        let suppressed_count := default 0 (dict_lookup "N_MORE_ERRORS" errlist) in
        match collect_errors mapper (dict_remove "N_MORE_ERRORS" errlist) with
        | Raise e => Raise e
        | Ok errors => Raise (LzcBatch exception errors suppressed_count)
        end
    end.

(** The inner [_map] of [lzc_snapshot_xlate_errors], lines 72-91. *)
Definition snapshot_map (snaps : list string) (ret : Z) (name : option string) : res pyobj :=
  if Z.eqb ret EXDEV then
    let pool_names := List.map _pool_name snaps in
    let same_pool :=
      match pool_names with
      | [] => true
      | p0 :: _ => forallb (fun x => String.eqb x p0) pool_names
      end in
    if same_pool then Ok (ObjFailure (DuplicateSnapshots name))
    else Ok (ObjFailure (PoolsDiffer name))
  else if Z.eqb ret EINVAL then
    if existsb (fun s => negb (_is_valid_snap_name s)) snaps
      then Ok (ObjFailure (NameInvalid name))
    else if existsb (fun s => (MAXNAMELEN <? String.length s)%nat) snaps
      then Ok (ObjFailure (NameTooLong name))
    else Ok (ObjFailure (PropertyInvalid name))
  else
    Ok (ObjFailure (table_get
      [(EEXIST, SnapshotExists name); (ENOENT, FilesystemNotFound name)]
      ret (genericException ret name "Failed to create snapshot"))).

(** Lines 69-92. *)
Definition lzc_snapshot_xlate_errors (ret : Z) (errlist : list (string * Z))
    (snaps : list string) : res unit :=
  if Z.eqb ret 0 then Ok tt
  else _handleErrList ret errlist snaps SnapshotFailure (snapshot_map snaps).

(** [bool(name)] for a name that may be [None]. *)
Definition name_truthy (name : option string) : bool :=
  match name with Some s => truthy s | None => false end.

(** The inner [_map] of [lzc_release_xlate_errors], lines 218-246.
    [holds] maps a snapshot name to its list of tags.  The [EINVAL] branch
    ends without a [return] when none of its tests fires, and the
    [ENOTSUP] branch returns a one-element tuple (line 244 ends in a
    comma). *)
Definition release_map (holds : list (string * list string)) (ret : Z)
    (name : option string) : res pyobj :=
  if Z.eqb ret EXDEV then Ok (ObjFailure (PoolsDiffer name))
  else if Z.eqb ret EINVAL then
    match name with
    | Some n =>
        if truthy n then
          let pool_names := List.map (fun kv => _pool_name (fst kv)) holds in
          if negb (_is_valid_snap_name n) then Ok (ObjFailure (NameInvalid name))
          else if (MAXNAMELEN <? String.length n)%nat then Ok (ObjFailure (NameTooLong name))
          else if existsb (fun x => negb (String.eqb x (_pool_name n))) pool_names
            then Ok (ObjFailure (PoolsDiffer name))
          else Ok ObjNone
        else
          match List.filter (fun b => negb (_is_valid_snap_name b)) (List.map fst holds) with
          | b :: _ => Ok (ObjFailure (NameInvalid (Some b)))
          | [] => Ok ObjNone
          end
    | None =>
        match List.filter (fun b => negb (_is_valid_snap_name b)) (List.map fst holds) with
        | b :: _ => Ok (ObjFailure (NameInvalid (Some b)))
        | [] => Ok ObjNone
        end
    end
  else if Z.eqb ret ENOENT then Ok (ObjFailure (HoldNotFound name))
  else if Z.eqb ret E2BIG then
    match name with
    | None => Raise KeyError
    | Some n =>
        match dict_lookup n holds with
        | None => Raise KeyError
        | Some tag_list =>
            match List.filter (fun t => (MAXNAMELEN <? String.length t)%nat) tag_list with
            | t :: _ => Ok (ObjFailure (NameTooLong (Some t)))
            | [] => Raise IndexError
            end
        end
    end
  else if Z.eqb ret ENOTSUP then
    let pool_name := match name with Some n => Some (_pool_name n) | None => None end in
    Ok (ObjTuple1 (FeatureNotSupported pool_name))
  else Ok (ObjFailure (genericException ret name "Failed to release snapshot hold")).

(** Lines 212-247.  Every value of [holds] is a list here, so the test of
    lines 215-217 never fires. *)
Definition lzc_release_xlate_errors (ret : Z) (errlist : list (string * Z))
    (holds : list (string * list string)) : res unit :=
  if Z.eqb ret 0 then Ok tt
  else _handleErrList ret errlist (List.map fst holds) HoldReleaseFailure (release_map holds).

(** ** Python values handled by the codec ([nvlist.py], lines 23-34) *)

(** The C types of [_type_to_suffix], and one that is not in the table. *)
Inductive ctype : Type :=
  | uint8_t | int8_t | uint16_t | int16_t | uint32_t | int32_t
  | uint64_t | int64_t | boolean_t | uchar_t
  | double_t.

(** A dictionary is the list of its items, in the order in which it
    iterates. *)
Inductive pyval : Type :=
  | PyNone
  | PyBool (b : bool)
  | PyInt (n : Z)
  | PyStr (s : string)
  | PyFloat
  | PyCData (t : ctype) (n : Z)
  | PyList (elems : list pyval)
  | PyDict (items : list (pyval * pyval)).

(** [type(v).__name__] *)
Definition type_name (v : pyval) : string :=
  match v with
  | PyNone => "NoneType"
  | PyBool _ => "bool"
  | PyInt _ => "int"
  | PyStr _ => "str"
  | PyFloat => "float"
  | PyCData _ _ => "CData"
  | PyList _ => "list"
  | PyDict _ => "dict"
  end.

(** [type(a) is type(b)] *)
Definition same_type (a b : pyval) : bool := String.eqb (type_name a) (type_name b).

(** [props[name] = val] on the items of a dictionary: the value under a
    present key is replaced, a new key adds an item. *)
Fixpoint dict_store (name : string) (val : pyval) (props : list (pyval * pyval))
    : list (pyval * pyval) :=
  match props with
  | [] => [(PyStr name, val)]
  | (k, v) :: rest =>
      match k with
      | PyStr s => if String.eqb s name then (k, val) :: rest
                   else (k, v) :: dict_store name val rest
      | _ => (k, v) :: dict_store name val rest
      end
  end.

(** The items of the dictionary after [props[name] = val], in the order
    in which it iterates then.  A Python 2 dictionary ([basestring],
    [long], [iteritems]) iterates in the order of its hash table, which
    the order of the insertions does not decide: [hash_order] stands for
    that order, and nothing is assumed about it. *)
Definition dict_setitem (hash_order : list (pyval * pyval) -> list (pyval * pyval))
    (name : string) (val : pyval) (props : list (pyval * pyval)) : list (pyval * pyval) :=
  hash_order (dict_store name val props).

(** ** The wire container *)

(** Modelled from the spec: the library behind [_lib] is not among the
    sources.  A container is an ordered list of named, tagged entries
    (section 6 of the specification); names are unique (the code allocates
    with [UNIQUE_NAME]), adding under a present name replaces the entry,
    and adding a container stores a copy of it. *)
Inductive num_type : Type :=
  | t_boolean_value | t_byte | t_int8 | t_uint8 | t_int16 | t_uint16
  | t_int32 | t_uint32 | t_int64 | t_uint64.

Inductive nvvalue : Type :=
  | NvBoolean
  | NvNum (t : num_type) (n : Z)
  | NvString (s : string)
  | NvNvlist (l : list (string * nvvalue))
  | NvNumArray (t : num_type) (ns : list Z)
  | NvStringArray (ss : list string)
  | NvNvlistArray (ls : list (list (string * nvvalue)))
  | NvHrtime (n : Z).

Inductive data_type : Type :=
  | DATA_TYPE_BOOLEAN
  | DATA_TYPE_NUM (t : num_type)
  | DATA_TYPE_STRING
  | DATA_TYPE_NVLIST
  | DATA_TYPE_NUM_ARRAY (t : num_type)
  | DATA_TYPE_STRING_ARRAY
  | DATA_TYPE_NVLIST_ARRAY
  | DATA_TYPE_HRTIME.

Definition nvpair_type (v : nvvalue) : data_type :=
  match v with
  | NvBoolean => DATA_TYPE_BOOLEAN
  | NvNum t _ => DATA_TYPE_NUM t
  | NvString _ => DATA_TYPE_STRING
  | NvNvlist _ => DATA_TYPE_NVLIST
  | NvNumArray t _ => DATA_TYPE_NUM_ARRAY t
  | NvStringArray _ => DATA_TYPE_STRING_ARRAY
  | NvNvlistArray _ => DATA_TYPE_NVLIST_ARRAY
  | NvHrtime _ => DATA_TYPE_HRTIME
  end.

(** A C string ends at its first NUL. *)
Definition c_string (s : string) : string := before_first (Ascii.eqb zero) s.

Abbreviation handle := nat (only parsing).
Definition NULL : handle := 0%nat.

(** The state of the library: the containers that are allocated and not
    yet freed, the next handle, and the statuses that the coming fallible
    calls ([nvlist_alloc], [nvlist_add_*]) return, in order; past the end
    of the script every call succeeds. *)
Record lib : Type := Lib {
  heap : gmap nat (list (string * nvvalue));
  next_handle : nat;
  script : list Z
}.

(** ** A state-and-exception monad over the library *)

Definition M (A : Type) : Type := lib -> res A * lib.

Definition ret {A : Type} (a : A) : M A := fun st => (Ok a, st).

Definition raise {A : Type} (e : exn) : M A := fun st => (Raise e, st).

Definition bind {A B : Type} (m : M A) (k : A -> M B) : M B :=
  fun st =>
    match m st with
    | (Ok a, st') => k a st'
    | (Raise e, st') => (Raise e, st')
    end.

Notation "x <- m ;; k" := (bind m (fun x => k))
  (at level 100, m at next level, right associativity).
Notation "m ;;; k" := (bind m (fun _ => k))
  (at level 100, right associativity).

(** [try: m finally: f]: [f] runs on both exits; an exception of [f]
    replaces the outcome of [m]. *)
Definition try_finally {A : Type} (m : M A) (f : M unit) : M A :=
  fun st =>
    let '(r, st1) := m st in
    match f st1 with
    | (Ok _, st2) => (r, st2)
    | (Raise e, st2) => (Raise e, st2)
    end.

(** The status of the next fallible call. *)
Definition next_status : M Z :=
  fun st =>
    match script st with
    | [] => (Ok 0, st)
    | s :: rest => (Ok s, Lib (heap st) (next_handle st) rest)
    end.

(** [nvlist_alloc(p, 1, 0)]: the status and what [p[0]] holds afterwards
    (it stays [NULL] on failure). *)
Definition nvlist_alloc : M (Z * handle) :=
  s <- next_status ;;
  if Z.eqb s 0 then
    fun st =>
      let h := next_handle st in
      (Ok (0, h), Lib (<[h := []]> (heap st)) (S h) (script st))
  else ret (s, NULL).

Definition nvlist_free (h : handle) : M unit :=
  fun st => (Ok tt, Lib (delete h (heap st)) (next_handle st) (script st)).

(** Adding under a name that is present replaces the entry. *)
Definition nvl_add (name : string) (v : nvvalue) (l : list (string * nvvalue))
    : list (string * nvvalue) :=
  dict_remove name l ++ [(name, v)].

(** The shared part of every [nvlist_add_*]: the status, and on success
    the new entry in the container. *)
Definition nvlist_add (nvlist : handle) (name : string) (v : nvvalue) : M Z :=
  s <- next_status ;;
  if Z.eqb s 0 then
    fun st =>
      match heap st !! nvlist with
      | Some l =>
          (Ok 0, Lib (<[nvlist := nvl_add (c_string name) v l]> (heap st))
                     (next_handle st) (script st))
      | None => (Ok EINVAL, st)
      end
  else ret s.

Definition nvlist_add_boolean (nvlist : handle) (name : string) : M Z :=
  nvlist_add nvlist name NvBoolean.

Definition nvlist_add_boolean_value (nvlist : handle) (name : string) (b : bool) : M Z :=
  nvlist_add nvlist name (NvNum t_boolean_value (if b then 1 else 0)).

Definition nvlist_add_string (nvlist : handle) (name : string) (s : string) : M Z :=
  nvlist_add nvlist name (NvString (c_string s)).

Definition nvlist_add_num (t : num_type) (nvlist : handle) (name : string) (n : Z) : M Z :=
  nvlist_add nvlist name (NvNum t n).

Definition nvlist_add_nvlist (nvlist : handle) (name : string) (sub : handle) : M Z :=
  fun st =>
    match heap st !! sub with
    | Some l => nvlist_add nvlist name (NvNvlist l) st
    | None => (Ok EINVAL, st)
    end.

Definition nvlist_add_boolean_array (nvlist : handle) (name : string) (bs : list bool) : M Z :=
  nvlist_add nvlist name
    (NvNumArray t_boolean_value (List.map (fun b : bool => if b then 1 else 0) bs)).

(** The contents of the containers of [c_array], [None] when one of the
    handles is not allocated. *)
Fixpoint contents_of (hp : gmap nat (list (string * nvvalue))) (c_array : list handle)
    : option (list (list (string * nvvalue))) :=
  match c_array with
  | [] => Some []
  | h :: rest =>
      match hp !! h, contents_of hp rest with
      | Some l, Some ls => Some (l :: ls)
      | _, _ => None
      end
  end.

Definition nvlist_add_nvlist_array (nvlist : handle) (name : string) (c_array : list handle)
    : M Z :=
  fun st =>
    match contents_of (heap st) c_array with
    | Some ls => nvlist_add nvlist name (NvNvlistArray ls) st
    | None => (Ok EINVAL, st)
    end.

(** ** NvlistCodec ([nvlist.py])

    The file is not a program that Python accepts as it stands.

    - Four statement headers lack their colon (lines 117, 156, 220 and
      250), so the compiler refuses the file ([headers],
      [missing_colons]).
    - With the colons supplied, executing the module stops at line 71,
      which calls [namedtuple], a name that nothing binds ([exec_module],
      [import_nvlist]); no function after that line gets defined.
    - The functions are embedded below as their [def] statements are
      written, with the colons supplied.  A global name is looked up among
      the names that the top-level statements bind ([module_globals],
      [global_name]); a name that is bound nowhere ([TypeInfo], [get],
      [ffi], [s_array], [nvlist] inside [nvlist_out]) raises [NameError]
      when it is evaluated, and the call of line 205, which passes two of
      the three arguments, raises [TypeError].

    No run of these functions in which the codec returns a result is a run
    of the file: the theorems about them say how the code fails. *)

(** The headers of the compound statements of the file, by line, without
    indentation and comment.  The grammar ends each one with a colon. *)
Definition headers : list (nat * string) :=
  [(40%nat, "def _ffi_cast(type_name):");
   (41%nat, "def _func(value):");
   (73%nat, "def _type_info(typeid):");
   (111%nat, "def _nvlist_add_array(nvlist, key, array):");
   (116%nat, "for i in range(1, length):");
   (117%nat, "if type(array[i]) is not type(specimen)");
   (123%nat, "if isinstance(specimen, dict):");
   (128%nat, "for i in range(0, length):");
   (130%nat, "if res != 0:");
   (133%nat, "if res != 0:");
   (134%nat, "for i in range(0, length):");
   (135%nat, "if c_array[i] != _ffi.NULL:");
   (139%nat, "for i in range(0, length):");
   (141%nat, "elif isinstance(specimen, basestring):");
   (143%nat, "for i in range(0, length):");
   (146%nat, "elif isinstance(specimen, bool):");
   (148%nat, "elif isinstance(specimen, (int, long)):");
   (152%nat, "elif isinstance(specimen, _ffi.CData) and _ffi.typeof(specimen) in _type_to_suffix:");
   (156%nat, "else");
   (158%nat, "if ret != 0:");
   (162%nat, "def _nvlist_to_dict(nvlist, props):");
   (164%nat, "while pair != _ffi.NULL:");
   (172%nat, "if is_array:");
   (176%nat, "if ret != 0:");
   (180%nat, "for i in range(length):");
   (182%nat, "else:");
   (183%nat, "if typeid == _lib.DATA_TYPE_BOOLEAN:");
   (185%nat, "else:");
   (188%nat, "if ret != 0:");
   (196%nat, "def _dict_to_nvlist(props, nvlist):");
   (197%nat, "for k, v in props.items():");
   (198%nat, "if not isinstance(k, basestring):");
   (201%nat, "if isinstance(v, dict):");
   (202%nat, "with nvlist_in(v) as sub_nvlist:");
   (204%nat, "elif isinstance(v, list):");
   (206%nat, "elif isinstance(v, basestring):");
   (208%nat, "elif isinstance(v, bool):");
   (210%nat, "elif v is None:");
   (212%nat, "elif isinstance(v, (int, long)):");
   (216%nat, "elif isinstance(v, _ffi.CData) and _ffi.typeof(v) in _type_to_suffix:");
   (220%nat, "else");
   (222%nat, "if ret != 0:");
   (227%nat, "def nvlist_in(props):");
   (230%nat, "if res != 0:");
   (234%nat, "try:");
   (236%nat, "finally:");
   (241%nat, "def nvlist_out(props):");
   (244%nat, "try:");
   (249%nat, "finally:");
   (250%nat, "if (nvlist[0] != _ffi.NULL)")].

Fixpoint last_char (s : string) : option ascii :=
  match s with
  | EmptyString => None
  | String c EmptyString => Some c
  | String _ r => last_char r
  end.

Definition ends_with_colon (s : string) : bool :=
  match last_char s with
  | Some c => Ascii.eqb c ":"
  | None => false
  end.

(** The lines at which the compiler finds no colon. *)
Definition missing_colons : list nat :=
  List.map fst (List.filter (fun h => negb (ends_with_colon (snd h))) headers).

(** A top-level statement of the module: its line, the global names it
    evaluates when it is executed (a [def] evaluates its decorator, not
    its body; none of the names is a builtin) and the names it binds. *)
Record toplevel : Type := Stmt {
  stmt_line : nat;
  evaluates : list string;
  binds : list string
}.

(** The top-level statements of the file: the imports (1-2; the package
    [bindings] is not among the sources, and both are taken to succeed),
    [_ffi] and [_lib] (37-38), [_ffi_cast] (40), the ten casts (47-56),
    [_type_to_suffix] (58), [TypeInfo] (71), [_type_info] (73),
    [_prop_name_to_type_str] (103) and the five functions of the codec,
    the last two under the decorator [contextmanager]. *)
Definition nvlist_py : list toplevel :=
  [Stmt 1 [] ["contextmanager"];
   Stmt 2 [] ["libnvpair"];
   Stmt 37 ["libnvpair"] ["_ffi"];
   Stmt 38 ["libnvpair"] ["_lib"];
   Stmt 40 [] ["_ffi_cast"];
   Stmt 47 ["_ffi_cast"] ["uint8_t"];
   Stmt 48 ["_ffi_cast"] ["int8_t"];
   Stmt 49 ["_ffi_cast"] ["uint16_t"];
   Stmt 50 ["_ffi_cast"] ["int16_t"];
   Stmt 51 ["_ffi_cast"] ["uint32_t"];
   Stmt 52 ["_ffi_cast"] ["int32_t"];
   Stmt 53 ["_ffi_cast"] ["uint64_t"];
   Stmt 54 ["_ffi_cast"] ["int64_t"];
   Stmt 55 ["_ffi_cast"] ["boolean_t"];
   Stmt 56 ["_ffi_cast"] ["uchar_t"];
   Stmt 58 ["_ffi"] ["_type_to_suffix"];
   Stmt 71 ["namedtuple"] ["TypeInfo"];
   Stmt 73 [] ["_type_info"];
   Stmt 103 [] ["_prop_name_to_type_str"];
   Stmt 111 [] ["_nvlist_add_array"];
   Stmt 162 [] ["_nvlist_to_dict"];
   Stmt 196 [] ["_dict_to_nvlist"];
   Stmt 226 ["contextmanager"] ["nvlist_in"];
   Stmt 240 ["contextmanager"] ["nvlist_out"]]%nat.

Definition is_bound (bound : list string) (name : string) : bool :=
  existsb (String.eqb name) bound.

(** Executing a module: the statements run in order, and the first that
    evaluates an unbound name stops the execution with [NameError]; the
    names bound so far are what the module holds. *)
Inductive load_result : Type :=
  | Loaded (names : list string)
  | Stopped (line : nat) (e : exn) (names : list string).

Fixpoint exec_module (stmts : list toplevel) (bound : list string) : load_result :=
  match stmts with
  | [] => Loaded bound
  | s :: rest =>
      match List.find (fun name => negb (is_bound bound name)) (evaluates s) with
      | Some name => Stopped (stmt_line s) (NameError name) bound
      | None => exec_module rest (bound ++ binds s)
      end
  end.

Definition import_nvlist : load_result := exec_module nvlist_py [].

(** The names that the statements bind when each one is run in its turn
    and a statement that raises binds nothing: the global names that the
    bodies of the functions find. *)
Fixpoint bound_names (stmts : list toplevel) (bound : list string) : list string :=
  match stmts with
  | [] => bound
  | s :: rest =>
      if forallb (is_bound bound) (evaluates s) then bound_names rest (bound ++ binds s)
      else bound_names rest bound
  end.

Definition module_globals : list string := bound_names nvlist_py [].

(** Evaluating a global name inside a function. *)
Definition global_name (name : string) : res unit :=
  if is_bound module_globals name then Ok tt else Raise (NameError name).

(** Lines 58-69. *)
Definition _type_to_suffix (t : ctype) : option string :=
  match t with
  | uint8_t => Some "uint8"
  | int8_t => Some "int8"
  | uint16_t => Some "uint16"
  | int16_t => Some "int16"
  | uint32_t => Some "uint32"
  | int32_t => Some "int32"
  | uint64_t => Some "uint64"
  | int64_t => Some "int64"
  | boolean_t => Some "boolean"
  | uchar_t => Some "byte"
  | double_t => None
  end.

(** The conversions of the [TypeInfo] table: [bool(x)], [int(x)],
    [_ffi.string(x)] and [_nvlist_to_dict(x, {})]. *)
Inductive converter : Type := conv_bool | conv_int | conv_string | conv_nvlist.

Record TypeInfo : Type := mkTypeInfo {
  suffix : option string;
  convert : option converter
}.

Definition num_suffix (t : num_type) : string :=
  match t with
  | t_boolean_value => "boolean_value"
  | t_byte => "byte"
  | t_int8 => "int8"
  | t_uint8 => "uint8"
  | t_int16 => "int16"
  | t_uint16 => "uint16"
  | t_int32 => "int32"
  | t_uint32 => "uint32"
  | t_int64 => "int64"
  | t_uint64 => "uint64"
  end.

Definition num_array_suffix (t : num_type) : string :=
  match t with
  | t_boolean_value => "boolean_array"
  | _ => num_suffix t ++ "_array"
  end.

Definition num_converter (t : num_type) : converter :=
  match t with t_boolean_value => conv_bool | _ => conv_int end.

(** Lines 73-100.  The dictionary is built before it is indexed, and
    every one of its values calls [TypeInfo], the name that line 71 would
    bind: the lookup of that name decides the call.  A tag outside the
    table is a [KeyError]. *)
Definition _type_info (typeid : data_type) : res TypeInfo :=
  match global_name "TypeInfo" with
  | Raise e => Raise e
  | Ok _ =>
      match typeid with
      | DATA_TYPE_BOOLEAN => Ok (mkTypeInfo None None)
      | DATA_TYPE_NUM t => Ok (mkTypeInfo (Some (num_suffix t)) (Some (num_converter t)))
      | DATA_TYPE_STRING => Ok (mkTypeInfo (Some "string") (Some conv_string))
      | DATA_TYPE_NVLIST => Ok (mkTypeInfo (Some "nvlist") (Some conv_nvlist))
      | DATA_TYPE_NUM_ARRAY t =>
          Ok (mkTypeInfo (Some (num_array_suffix t)) (Some (num_converter t)))
      | DATA_TYPE_STRING_ARRAY => Ok (mkTypeInfo (Some "string_array") (Some conv_string))
      | DATA_TYPE_NVLIST_ARRAY => Ok (mkTypeInfo (Some "nvlist_array") (Some conv_nvlist))
      | DATA_TYPE_HRTIME => Raise KeyError
      end
  end.

(** Lines 102-108. *)
Definition _prop_name_to_type_str : list (string * string) :=
  [("rewind-request", "uint32"); ("type", "uint32");
   ("N_MORE_ERRORS", "int32"); ("pool_context", "int32")].

(** The scalar accessor a suffix names, when the library has
    [nvlist_add_<suffix>] with a value parameter. *)
Definition num_type_of_suffix (s : string) : option num_type :=
  if String.eqb s "boolean_value" then Some t_boolean_value
  else if String.eqb s "byte" then Some t_byte
  else if String.eqb s "int8" then Some t_int8
  else if String.eqb s "uint8" then Some t_uint8
  else if String.eqb s "int16" then Some t_int16
  else if String.eqb s "uint16" then Some t_uint16
  else if String.eqb s "int32" then Some t_int32
  else if String.eqb s "uint32" then Some t_uint32
  else if String.eqb s "int64" then Some t_int64
  else if String.eqb s "uint64" then Some t_uint64
  else None.

(** [getattr(_lib, "nvlist_add_%s" % (suffix))(nvlist, k, v)].  The
    function [nvlist_add_boolean] takes a container and a name only
    (line 211), so the call with a value is refused. *)
Definition call_nvlist_add (suffix : string) (nvlist : handle) (k : string) (n : Z) : M Z :=
  if String.eqb suffix "boolean" then
    raise (TypeError "nvlist_add_boolean() takes 2 arguments (3 given)")
  else
    match num_type_of_suffix suffix with
    | Some t => nvlist_add_num t nvlist k n
    | None => raise (AttributeError ("nvlist_add_" ++ suffix))
    end.

(** Lines 226-237, for any way [populate] of filling the fresh container:
    allocation, population (outside the [try]), then the body with the
    release in [finally]. *)
Definition nvlist_in_with {A : Type} (populate : handle -> M unit) (body : handle -> M A)
    : M A :=
  a <- nvlist_alloc ;;
  if negb (Z.eqb (fst a) 0) then raise (MemoryError "nvlist_alloc failed")
  else
    let nvlist := snd a in
    populate nvlist ;;;
    try_finally (body nvlist) (nvlist_free nvlist).

(** Lines 196-223, as the [def] is written, with the colon of line 220
    supplied.  Line 205 calls [_nvlist_add_array] with two of its three
    arguments, and line 213 reads [_prop_name_to_type_str,get(...)], a
    tuple whose second element looks up the unbound name [get]. *)
Fixpoint _dict_to_nvlist (props : pyval) (nvlist : handle) {struct props} : M unit :=
  match props with
  | PyDict items =>
      (fix loop (items : list (pyval * pyval)) : M unit :=
         match items with
         | [] => ret tt
         | (k, v) :: rest =>
             match k with
             | PyStr key =>
                 r <- match v with
                      | PyDict _ =>
                          nvlist_in_with (_dict_to_nvlist v)
                            (fun sub_nvlist => nvlist_add_nvlist nvlist key sub_nvlist)
                      | PyList _ =>
                          raise (TypeError "_nvlist_add_array() takes exactly 3 arguments (2 given)")
                      | PyStr s => nvlist_add_string nvlist key s
                      | PyBool b => nvlist_add_boolean_value nvlist key b
                      | PyNone => nvlist_add_boolean nvlist key
                      | PyInt _ => raise (NameError "get")
                      | PyCData t n =>
                          match _type_to_suffix t with
                          | Some suffix => call_nvlist_add suffix nvlist key n
                          | None => raise (TypeError ("Unsupported value type " ++ type_name v))
                          end
                      | PyFloat => raise (TypeError ("Unsupported value type " ++ type_name v))
                      end ;;
                 if negb (Z.eqb r 0) then raise (MemoryError "nvlist_add failed")
                 else loop rest
             | _ => raise (TypeError ("Unsupported key type " ++ type_name k))
             end
         end) items
  | _ => raise (AttributeError "items")
  end.

(** Lines 226-237. *)
Definition nvlist_in {A : Type} (props : pyval) (body : handle -> M A) : M A :=
  nvlist_in_with (_dict_to_nvlist props) body.

(** The dispatch of lines 201-221 on one value, as [_dict_to_nvlist]
    performs it: the status that line 222 tests. *)
Definition add_value (nvlist : handle) (key : string) (v : pyval) : M Z :=
  match v with
  | PyDict _ =>
      nvlist_in v (fun sub_nvlist => nvlist_add_nvlist nvlist key sub_nvlist)
  | PyList _ => raise (TypeError "_nvlist_add_array() takes exactly 3 arguments (2 given)")
  | PyStr s => nvlist_add_string nvlist key s
  | PyBool b => nvlist_add_boolean_value nvlist key b
  | PyNone => nvlist_add_boolean nvlist key
  | PyInt _ => raise (NameError "get")
  | PyCData t n =>
      match _type_to_suffix t with
      | Some suffix => call_nvlist_add suffix nvlist key n
      | None => raise (TypeError ("Unsupported value type " ++ type_name v))
      end
  | PyFloat => raise (TypeError ("Unsupported value type " ++ type_name v))
  end.

(** Lines 116-121, with the colon of line 117 supplied: every later
    element is compared with the first one by its Python type; the first
    one that differs raises. *)
Fixpoint check_types (specimen : pyval) (rest : list pyval) : M unit :=
  match rest with
  | [] => ret tt
  | x :: rest' =>
      if negb (same_type x specimen) then
        raise (TypeError ("Array has elements of different types: "
                          ++ type_name specimen ++ " and " ++ type_name x))
      else check_types specimen rest'
  end.

(** Lines 128-132: the status of the last allocation and [c_array].  An
    exception of [_dict_to_nvlist] leaves the loop and the function. *)
Fixpoint alloc_loop (elems : list pyval) (i : nat) (c_array : list handle)
    : M (Z * list handle) :=
  match elems with
  | [] => ret (0, c_array)
  | d :: elems' =>
      a <- nvlist_alloc ;;
      if negb (Z.eqb (fst a) 0) then ret (fst a, c_array)
      else
        let c_array' := <[i := snd a]> c_array in
        _dict_to_nvlist d (snd a) ;;;
        alloc_loop elems' (S i) c_array'
  end.

(** Lines 134-136. *)
Fixpoint free_non_null (c_array : list handle) : M unit :=
  match c_array with
  | [] => ret tt
  | h :: rest =>
      (if negb (Nat.eqb h NULL) then nvlist_free h else ret tt) ;;;
      free_non_null rest
  end.

(** Lines 139-140. *)
Fixpoint free_all (c_array : list handle) : M unit :=
  match c_array with
  | [] => ret tt
  | h :: rest => nvlist_free h ;;; free_all rest
  end.

(** Lines 111-159, as the [def] is written with its three parameters and
    with the colons of lines 117 and 156 supplied.  The module itself
    never calls it so: its one call, line 205, passes two arguments and is
    the [TypeError] of [_dict_to_nvlist].  Line 144 uses [ffi], line 149
    [get] and line 155 [s_array], none of which is bound. *)
Definition _nvlist_add_array (nvlist : handle) (key : string) (array : list pyval) : M unit :=
  match array with
  | [] => raise IndexError
  | specimen :: rest =>
      check_types specimen rest ;;;
      r <- match specimen with
           | PyDict _ =>
               a <- alloc_loop array 0 (replicate (List.length array) NULL) ;;
               if negb (Z.eqb (fst a) 0) then
                 free_non_null (snd a) ;;;
                 raise (MemoryError "nvlist_alloc failed")
               else
                 r <- nvlist_add_nvlist_array nvlist key (snd a) ;;
                 free_all (snd a) ;;;
                 ret r
           | PyStr _ => raise (NameError "ffi")
           | PyBool _ =>
               nvlist_add_boolean_array nvlist key
                 (List.map (fun x => match x with PyBool b => b | _ => false end) array)
           | PyInt _ => raise (NameError "get")
           | PyCData t _ =>
               match _type_to_suffix t with
               | Some _ => raise (NameError "s_array")
               | None => raise (TypeError ("Unsupported value type " ++ type_name specimen))
               end
           | _ => raise (TypeError ("Unsupported value type " ++ type_name specimen))
           end ;;
      if negb (Z.eqb r 0) then raise (MemoryError "nvlist_add failed") else ret tt
  end.

(** [typeinfo.convert] on a number. *)
Definition convert_num (typeinfo : TypeInfo) (n : Z) : pyval :=
  match convert typeinfo with
  | Some conv_bool => PyBool (negb (Z.eqb n 0))
  | _ => PyInt n
  end.

Section decode_loops.
(** The iteration order of the dictionaries that decoding builds. *)
Variable hash_order : list (pyval * pyval) -> list (pyval * pyval).
(** The value stored for one pair; [nvpair_value] below. *)
Variable value : nvvalue -> res pyval.

(** The loop of lines 163-193 over the entries of a container, in wire
    order, with the assignment [props[name] = val] of line 191. *)
Fixpoint pairs_to_dict (nvlist : list (string * nvvalue)) (props : list (pyval * pyval))
    : res (list (pyval * pyval)) :=
  match nvlist with
  | [] => Ok props
  | (name, v) :: rest =>
      match value v with
      | Raise e => Raise e
      | Ok val => pairs_to_dict rest (dict_setitem hash_order name val props)
      end
  end.

(** The loop of lines 180-181 over an array of containers, each
    converted by [_nvlist_to_dict(x, {})]. *)
Fixpoint array_to_list (ls : list (list (string * nvvalue))) : res (list pyval) :=
  match ls with
  | [] => Ok []
  | l :: ls' =>
      match pairs_to_dict l [] with
      | Raise e => Raise e
      | Ok d =>
          match array_to_list ls' with
          | Raise e => Raise e
          | Ok ds => Ok (PyDict d :: ds)
          end
      end
  end.
End decode_loops.

(** The body of the loop of [_nvlist_to_dict], lines 165-190, for one
    pair: the value it stores under the pair's name.  The call of
    [_type_info] (line 167) comes first.  The accessor is looked up
    (line 169) before the tag is tested, so a presence-only entry, whose
    suffix is [None], would fail on [nvpair_value_None].  The accessor
    that is called is the one of the pair's own tag and returns
    status 0. *)
Fixpoint nvpair_value (hash_order : list (pyval * pyval) -> list (pyval * pyval))
    (v : nvvalue) : res pyval :=
  match _type_info (nvpair_type v) with
  | Raise e => Raise e
  | Ok typeinfo =>
      match suffix typeinfo with
      | None => Raise (AttributeError "nvpair_value_None")
      | Some _ =>
          match v with
          | NvBoolean => Ok PyNone
          | NvNum _ n => Ok (convert_num typeinfo n)
          | NvString s => Ok (PyStr s)
          | NvNvlist l =>
              match pairs_to_dict hash_order (nvpair_value hash_order) l [] with
              | Raise e => Raise e
              | Ok d => Ok (PyDict d)
              end
          | NvNumArray _ ns => Ok (PyList (List.map (convert_num typeinfo) ns))
          | NvStringArray ss => Ok (PyList (List.map PyStr ss))
          | NvNvlistArray ls =>
              match array_to_list hash_order (nvpair_value hash_order) ls with
              | Raise e => Raise e
              | Ok ds => Ok (PyList ds)
              end
          | NvHrtime n => Ok (PyInt n)
          end
      end
  end.

(** Lines 162-193, on the entries of the container in wire order. *)
Definition _nvlist_to_dict (hash_order : list (pyval * pyval) -> list (pyval * pyval))
    (nvlist : list (string * nvvalue)) (props : list (pyval * pyval))
    : res (list (pyval * pyval)) :=
  pairs_to_dict hash_order (nvpair_value hash_order) nvlist props.

(** [_nvlist_to_dict(nvlist, props)] on a handle; [nvlist_next_nvpair]
    finds no pair behind a handle that holds no container. *)
Definition nvlist_to_dict_at (hash_order : list (pyval * pyval) -> list (pyval * pyval))
    (nvlist : handle) (props : list (pyval * pyval)) : M (list (pyval * pyval)) :=
  fun st =>
    match heap st !! nvlist with
    | Some l => (_nvlist_to_dict hash_order l props, st)
    | None => (Ok props, st)
    end.

(** Lines 240-251.  The with-body receives the slot [nvlistp]; [body]
    gives its outcome and what [nvlistp[0]] holds when it ends.  The code
    after the [yield] and the [finally] clause read [nvlist[0]], and
    [nvlist] is not bound in this function: on normal exit the dictionary
    is cleared and the argument of [_nvlist_to_dict] raises; the test of
    the [finally] clause raises before [nvlist_free] on both exits.  The
    result is the exception that leaves the [with] statement, the
    dictionary and the library state. *)
Definition nvlist_out (props : list (pyval * pyval)) (body : lib -> res unit * handle * lib)
    (st : lib) : exn * list (pyval * pyval) * lib :=
  let '(r, nvlistp0, st1) := body st in
  let props1 :=
    match r with
    | Ok _ => []
    | Raise _ => props
    end in
  (NameError "nvlist", props1, st1).

(** ** ErrorClassifier: the remaining classifiers
    ([_error_translation.py], lines 95-209 and 250-362) *)

Definition EBADF : Z := 9.
Definition EAGAIN : Z := 11.
Definition ENODEV : Z := 19.
Definition ETXTBSY : Z := 26.
Definition ENOSPC : Z := 28.
Definition EROFS : Z := 30.
Definition ENAMETOOLONG : Z := 36.
Definition EDQUOT : Z := 122.

(** Modelled from the spec: the further classes of [lzc_exc] that these
    classifiers use, beside those of [failure] ([Known]); the module is
    not among the sources. *)
Inductive lzc_failure : Type :=
  | Known (f : failure)
  | SnapshotIsCloned (name : option string)
  | PoolNotFound (name : option string)
  | SnapshotIsHeld (name : option string)
  | BookmarkMismatch (name : option string)
  | BookmarkExists (name : option string)
  | BookmarkNotSupported (name : option string)
  | SnapshotMismatch (name : option string)
  | HoldExists (name : option string)
  | DatasetExists (name : option string)
  | StreamMismatch (name : option string)
  | DestinationModified (name : option string)
  | DatasetBusy (name : option string)
  | NoSpace (name : option string)
  | QuotaExceeded (name : option string)
  | ReadOnlyPool (name : option string)
  | SuspendedPool (name : option string)
  | BadHoldCleanupFD
  | BadStream
  | StreamFeatureNotSupported.

Inductive lzc_batch : Type :=
  | SnapshotDestructionFailure
  | BookmarkFailure
  | BookmarkDestructionFailure
  | HoldFailure.

(** What leaves one of these classifiers when it raises: a failure, a
    batch failure around the list of per-item failures and the suppressed
    count, [IOError(ret, os.strerror(ret))], or the [KeyError] of a
    dictionary lookup. *)
Inductive raised : Type :=
  | RaisedLzc (f : lzc_failure)
  | RaisedBatch (cls : lzc_batch) (errors : list lzc_failure) (suppressed_count : Z)
  | RaisedIOError (ret : Z)
  | RaisedKeyError.

Inductive outcome : Type :=
  | Returns
  | Raises (r : raised).

(** The result of a per-item mapper: the failure it returns, or the
    [KeyError] it raises. *)
Inductive mapped : Type :=
  | Mapped (f : lzc_failure)
  | MapperKeyError.

(** [d.get(ret, default)] *)
Fixpoint dict_get {V : Type} (table : list (Z * V)) (ret : Z) (default : V) : V :=
  match table with
  | [] => default
  | (code, v) :: rest => if Z.eqb ret code then v else dict_get rest ret default
  end.

Fixpoint collect_mapped (mapper : Z -> option string -> mapped)
    (items : list (string * Z)) : option (list lzc_failure) :=
  match items with
  | [] => Some []
  | (name, err) :: rest =>
      match mapper err (Some name) with
      | MapperKeyError => None
      | Mapped f =>
          match collect_mapped mapper rest with
          | None => None
          | Some fs => Some (f :: fs)
          end
      end
  end.

(** Lines 365-382 again, for the batch classes and the mappers of these
    classifiers. *)
Definition _handleErrList' (ret : Z) (errlist : list (string * Z)) (names : list string)
    (exception : lzc_batch) (mapper : Z -> option string -> mapped) : outcome :=
  if Z.eqb ret 0 then Returns
  else
    match errlist with
    | [] =>
        let name := match names with [n] => Some n | _ => None end in
        match mapper ret name with
        | MapperKeyError => Raises RaisedKeyError
        | Mapped f => Raises (RaisedBatch exception [f] 0)
        end
    | _ :: _ =>
        let suppressed_count := default 0 (dict_lookup "N_MORE_ERRORS" errlist) in
        match collect_mapped mapper (dict_remove "N_MORE_ERRORS" errlist) with
        | None => Raises RaisedKeyError
        | Some errors => Raises (RaisedBatch exception errors suppressed_count)
        end
    end.

(** Lines 98-103. *)
Definition destroy_snaps_map (ret : Z) (name : option string) : mapped :=
  Mapped (dict_get
    [(EEXIST, SnapshotIsCloned name); (ENOENT, PoolNotFound name); (EBUSY, SnapshotIsHeld name)]
    ret (Known (genericException ret name "Failed to destroy snapshot"))).

(** Lines 95-104. *)
Definition lzc_destroy_snaps_xlate_errors (ret : Z) (errlist : list (string * Z))
    (snaps : list string) : outcome :=
  if Z.eqb ret 0 then Returns
  else _handleErrList' ret errlist snaps SnapshotDestructionFailure destroy_snaps_map.

(** The first name of [names] that [valid] refuses, as
    [[b for b in names if not valid(b)]] followed by [[0]] finds it. *)
Definition first_invalid (valid : string -> bool) (names : list string) : option string :=
  match List.filter (fun b => negb (valid b)) names with
  | b :: _ => Some b
  | [] => None
  end.

(** Lines 110-131; [bookmarks] maps a bookmark name to its snapshot. *)
Definition bookmark_map (bookmarks : list (string * string)) (ret : Z)
    (name : option string) : mapped :=
  let table :=
    Mapped (dict_get
      [(EEXIST, BookmarkExists name); (ENOENT, Known (SnapshotNotFound name));
       (ENOTSUP, BookmarkNotSupported name)]
      ret (Known (genericException ret name "Failed to create bookmark"))) in
  if Z.eqb ret EINVAL then
    if name_truthy name then
      match name with
      | None => table
      | Some n =>
          match dict_lookup n bookmarks with
          | None => MapperKeyError
          | Some snap =>
              let pool_names := List.map (fun kv => _pool_name (fst kv)) bookmarks in
              if negb (_is_valid_bmark_name n) then Mapped (Known (NameInvalid name))
              else if negb (_is_valid_snap_name snap)
                then Mapped (Known (NameInvalid (Some snap)))
              else if negb (String.eqb (_fs_name n) (_fs_name snap))
                then Mapped (BookmarkMismatch name)
              else if existsb (fun x => negb (String.eqb x (_pool_name n))) pool_names
                then Mapped (Known (PoolsDiffer name))
              else table
          end
      end
    else
      match first_invalid _is_valid_bmark_name (List.map fst bookmarks) with
      | Some b => Mapped (Known (NameInvalid (Some b)))
      | None => table
      end
  else table.

(** Lines 107-132. *)
Definition lzc_bookmark_xlate_errors (ret : Z) (errlist : list (string * Z))
    (bookmarks : list (string * string)) : outcome :=
  if Z.eqb ret 0 then Returns
  else _handleErrList' ret errlist (List.map fst bookmarks) BookmarkFailure
         (bookmark_map bookmarks).

(** Lines 135-140. *)
Definition lzc_get_bookmarks_xlate_error (ret : Z) (fsname : string) : outcome :=
  if Z.eqb ret 0 then Returns
  else Raises (RaisedLzc (dict_get
         [(ENOENT, Known (FilesystemNotFound (Some fsname)))]
         ret (Known (genericException ret (Some fsname) "Failed to list bookmarks")))).

(** Lines 146-149. *)
Definition destroy_bookmarks_map (ret : Z) (name : option string) : mapped :=
  Mapped (dict_get [(EINVAL, Known (NameInvalid name))]
    ret (Known (genericException ret name "Failed to destroy bookmark"))).

(** Lines 143-150; [bookmarks] is the list of names. *)
Definition lzc_destroy_bookmarks_xlate_errors (ret : Z) (errlist : list (string * Z))
    (bookmarks : list string) : outcome :=
  if Z.eqb ret 0 then Returns
  else _handleErrList' ret errlist bookmarks BookmarkDestructionFailure destroy_bookmarks_map.

(** Lines 153-171. *)
Definition lzc_snaprange_space_xlate_error (ret : Z) (firstsnap lastsnap : string) : outcome :=
  if Z.eqb ret 0 then Returns
  else if Z.eqb ret EINVAL then
    if negb (_is_valid_snap_name firstsnap)
      then Raises (RaisedLzc (Known (NameInvalid (Some firstsnap))))
    else if negb (_is_valid_snap_name lastsnap)
      then Raises (RaisedLzc (Known (NameInvalid (Some lastsnap))))
    else if (MAXNAMELEN <? String.length firstsnap)%nat
      then Raises (RaisedLzc (Known (NameTooLong (Some firstsnap))))
    else if (MAXNAMELEN <? String.length lastsnap)%nat
      then Raises (RaisedLzc (Known (NameTooLong (Some lastsnap))))
    else if negb (String.eqb (_pool_name firstsnap) (_pool_name lastsnap))
      then Raises (RaisedLzc (Known (PoolsDiffer (Some lastsnap))))
    else Raises (RaisedLzc (SnapshotMismatch (Some lastsnap)))
  else
    Raises (RaisedLzc (dict_get
      [(ENOENT, Known (SnapshotNotFound (Some lastsnap)))]
      ret (Known (genericException ret (Some lastsnap)
                    "Failed to calculate space used by range of snapshots")))).

(** Lines 177-206; [holds] maps a snapshot name to its tag.  The lookup
    [holds[name]] of lines 182 and 200 raises [KeyError] for a name that
    is not a key. *)
Definition hold_map (holds : list (string * string)) (ret : Z) (name : option string)
    : mapped :=
  let table :=
    match name with
    | None =>
        Mapped (dict_get
          [(ENOENT, Known (FilesystemNotFound None)); (EEXIST, HoldExists name);
           (E2BIG, Known (NameTooLong None)); (ENOTSUP, Known (FeatureNotSupported None))]
          ret (Known (genericException ret name "Failed to hold snapshot")))
    | Some n =>
        match dict_lookup n holds with
        | None => MapperKeyError
        | Some hold_name =>
            Mapped (dict_get
              [(ENOENT, Known (FilesystemNotFound (Some (_fs_name n))));
               (EEXIST, HoldExists name);
               (E2BIG, Known (NameTooLong (Some hold_name)));
               (ENOTSUP, Known (FeatureNotSupported (Some (_pool_name n))))]
              ret (Known (genericException ret name "Failed to hold snapshot")))
        end
    end in
  if Z.eqb ret EXDEV then Mapped (Known (PoolsDiffer name))
  else if Z.eqb ret EINVAL then
    if name_truthy name then
      match name with
      | None => table
      | Some n =>
          match dict_lookup n holds with
          | None => MapperKeyError
          | Some tag =>
              let pool_names := List.map (fun kv => _pool_name (fst kv)) holds in
              if negb (_is_valid_snap_name n) then Mapped (Known (NameInvalid name))
              else if (MAXNAMELEN <? String.length n)%nat
                then Mapped (Known (NameTooLong name))
              else if existsb (fun x => negb (String.eqb x (_pool_name n))) pool_names
                then Mapped (Known (PoolsDiffer name))
              else table
          end
      end
    else
      match first_invalid _is_valid_snap_name (List.map fst holds) with
      | Some b => Mapped (Known (NameInvalid (Some b)))
      | None => table
      end
  else table.

(** Lines 174-209; the parameter [fd] is not used. *)
Definition lzc_hold_xlate_errors (ret : Z) (errlist : list (string * Z))
    (holds : list (string * string)) : outcome :=
  if Z.eqb ret 0 then Returns
  else if Z.eqb ret EBADF then Raises (RaisedLzc BadHoldCleanupFD)
  else _handleErrList' ret errlist (List.map fst holds) HoldFailure (hold_map holds).

(** Lines 250-261. *)
Definition lzc_get_holds_xlate_error (ret : Z) (snapname : string) : outcome :=
  let table :=
    Raises (RaisedLzc (dict_get
      [(ENOENT, Known (SnapshotNotFound (Some snapname)));
       (ENOTSUP, Known (FeatureNotSupported (Some (_pool_name snapname))))]
      ret (Known (genericException ret (Some snapname) "Failed to get holds on snapshot")))) in
  if Z.eqb ret 0 then Returns
  else if Z.eqb ret EINVAL then
    if negb (_is_valid_snap_name snapname)
      then Raises (RaisedLzc (Known (NameInvalid (Some snapname))))
    else if (MAXNAMELEN <? String.length snapname)%nat
      then Raises (RaisedLzc (Known (NameTooLong (Some snapname))))
    else table
  else table.

(** [fromsnap is not None and test(fromsnap)] *)
Definition given (fromsnap : option string) (test : string -> bool) : bool :=
  match fromsnap with
  | Some s => test s
  | None => false
  end.

Definition too_long (name : string) : bool := (MAXNAMELEN <? String.length name)%nat.

(** Lines 264-294; the parameters [fd] and [flags] are not used. *)
Definition lzc_send_xlate_error (ret : Z) (snapname : string) (fromsnap : option string)
    : outcome :=
  let io_error := Raises (RaisedIOError ret) in
  if Z.eqb ret 0 then Returns
  else if Z.eqb ret EXDEV && given fromsnap (fun _ => true) then
    if given fromsnap (fun f => negb (String.eqb (_pool_name f) (_pool_name snapname)))
      then Raises (RaisedLzc (Known (PoolsDiffer (Some snapname))))
    else Raises (RaisedLzc (SnapshotMismatch (Some snapname)))
  else if Z.eqb ret EINVAL then
    if given fromsnap (fun f => negb (_is_valid_snap_name f) && negb (_is_valid_bmark_name f))
      then Raises (RaisedLzc (Known (NameInvalid fromsnap)))
    else if negb (_is_valid_snap_name snapname) && negb (_is_valid_fs_name snapname)
      then Raises (RaisedLzc (Known (NameInvalid (Some snapname))))
    else if given fromsnap too_long
      then Raises (RaisedLzc (Known (NameTooLong fromsnap)))
    else if too_long snapname
      then Raises (RaisedLzc (Known (NameTooLong (Some snapname))))
    else if given fromsnap (fun f => negb (String.eqb (_pool_name f) (_pool_name snapname)))
      then Raises (RaisedLzc (Known (PoolsDiffer (Some snapname))))
    else io_error
  else if Z.eqb ret ENOENT then
    if given fromsnap (fun f => negb (_is_valid_snap_name f) && negb (_is_valid_bmark_name f))
      then Raises (RaisedLzc (Known (NameInvalid fromsnap)))
    else Raises (RaisedLzc (Known (SnapshotNotFound (Some snapname))))
  else if Z.eqb ret ENAMETOOLONG then
    if given fromsnap too_long
      then Raises (RaisedLzc (Known (NameTooLong fromsnap)))
    else Raises (RaisedLzc (Known (NameTooLong (Some snapname))))
  else io_error.

(** Lines 297-321. *)
Definition lzc_send_space_xlate_error (ret : Z) (snapname : string)
    (fromsnap : option string) : outcome :=
  let table :=
    Raises (RaisedLzc (dict_get
      [(ENOENT, Known (SnapshotNotFound (Some snapname)))]
      ret (Known (genericException ret (Some snapname)
                    "Failed to estimate backup stream size")))) in
  if Z.eqb ret 0 then Returns
  else if Z.eqb ret EXDEV && given fromsnap (fun _ => true) then
    if given fromsnap (fun f => negb (String.eqb (_pool_name f) (_pool_name snapname)))
      then Raises (RaisedLzc (Known (PoolsDiffer (Some snapname))))
    else Raises (RaisedLzc (SnapshotMismatch (Some snapname)))
  else if Z.eqb ret EINVAL then
    if given fromsnap (fun f => negb (_is_valid_snap_name f))
      then Raises (RaisedLzc (Known (NameInvalid fromsnap)))
    else if negb (_is_valid_snap_name snapname)
      then Raises (RaisedLzc (Known (NameInvalid (Some snapname))))
    else if given fromsnap too_long
      then Raises (RaisedLzc (Known (NameTooLong fromsnap)))
    else if too_long snapname
      then Raises (RaisedLzc (Known (NameTooLong (Some snapname))))
    else if given fromsnap (fun f => negb (String.eqb (_pool_name f) (_pool_name snapname)))
      then Raises (RaisedLzc (Known (PoolsDiffer (Some snapname))))
    else table
  else if Z.eqb ret ENOENT && given fromsnap (fun _ => true) then
    if given fromsnap (fun f => negb (_is_valid_snap_name f))
      then Raises (RaisedLzc (Known (NameInvalid fromsnap)))
    else table
  else table.

(** Lines 324-362; the parameters [fd], [force] and [props] are not
    used. *)
Definition lzc_receive_xlate_error (ret : Z) (snapname : string) (origin : option string)
    : outcome :=
  if Z.eqb ret 0 then Returns
  else if Z.eqb ret EINVAL then
    if negb (_is_valid_snap_name snapname)
      then Raises (RaisedLzc (Known (NameInvalid (Some snapname))))
    else if too_long snapname
      then Raises (RaisedLzc (Known (NameTooLong (Some snapname))))
    else if given origin (fun o => negb (_is_valid_snap_name o))
      then Raises (RaisedLzc (Known (NameInvalid origin)))
    else Raises (RaisedLzc BadStream)
  else if Z.eqb ret ENOENT then
    if negb (_is_valid_snap_name snapname)
      then Raises (RaisedLzc (Known (NameInvalid (Some snapname))))
    else Raises (RaisedLzc (Known (DatasetNotFound (Some snapname))))
  else if Z.eqb ret EEXIST then Raises (RaisedLzc (DatasetExists (Some snapname)))
  else if Z.eqb ret ENOTSUP then Raises (RaisedLzc StreamFeatureNotSupported)
  else if Z.eqb ret ENODEV then Raises (RaisedLzc (StreamMismatch (Some (_fs_name snapname))))
  else if Z.eqb ret ETXTBSY
    then Raises (RaisedLzc (DestinationModified (Some (_fs_name snapname))))
  else if Z.eqb ret EBUSY then Raises (RaisedLzc (DatasetBusy (Some (_fs_name snapname))))
  else if Z.eqb ret ENOSPC then Raises (RaisedLzc (NoSpace (Some (_fs_name snapname))))
  else if Z.eqb ret EDQUOT then Raises (RaisedLzc (QuotaExceeded (Some (_fs_name snapname))))
  else if Z.eqb ret ENAMETOOLONG then Raises (RaisedLzc (Known (NameTooLong (Some snapname))))
  else if Z.eqb ret EROFS then Raises (RaisedLzc (ReadOnlyPool (Some (_pool_name snapname))))
  else if Z.eqb ret EAGAIN then Raises (RaisedLzc (SuspendedPool (Some (_pool_name snapname))))
  else Raises (RaisedIOError ret).

(** * Specification-side notions *)

(** The naming grammar in the words of the specification (section 6): a
    filesystem path is one or more [/]-separated components, each
    non-empty and made of letters, digits and the characters [-_.: ]. *)
Fixpoint join (sep : ascii) (comps : list string) : string :=
  match comps with
  | [] => EmptyString
  | [c] => c
  | c :: rest => c ++ String sep (join sep rest)
  end.

Definition is_letter (c : ascii) : bool :=
  let n := nat_of_ascii c in
  ((65 <=? n) && (n <=? 90) || (97 <=? n) && (n <=? 122))%nat.

Definition is_digit (c : ascii) : bool :=
  let n := nat_of_ascii c in ((48 <=? n) && (n <=? 57))%nat.

Definition grammar_char (c : ascii) : Prop :=
  is_letter c = true \/ is_digit c = true \/
  c = "-"%char \/ c = "_"%char \/ c = "."%char \/ c = ":"%char \/ c = " "%char.

Definition grammar_component (c : string) : Prop :=
  c <> EmptyString /\ forall x, In x (list_ascii_of_string c) -> grammar_char x.

Definition fs_name_grammar (s : string) : Prop :=
  exists comps, comps <> [] /\ s = join "/" comps /\ Forall grammar_component comps.

(** The number of occurrences of a character. *)
Fixpoint count_char (x : ascii) (s : string) : nat :=
  match s with
  | EmptyString => 0%nat
  | String c r => ((if Ascii.eqb c x then 1 else 0) + count_char x r)%nat
  end.

(** The outcomes of step 1 of section 4.2 of the specification and the
    order it gives: syntax, then length, then pool consistency, then the
    property-invalid fallback. *)
Inductive einval_kind : Type :=
  | name_invalid | name_too_long | pools_differ | property_invalid.

Definition einval_order (syntax_ok length_ok pools_ok : bool) : einval_kind :=
  if negb syntax_ok then name_invalid
  else if negb length_ok then name_too_long
  else if negb pools_ok then pools_differ
  else property_invalid.




Definition fits (name : string) : bool := (String.length name <=? MAXNAMELEN)%nat.

(** A name of [n] letters. *)
Fixpoint letters (n : nat) : string :=
  match n with
  | O => EmptyString
  | S n' => String "a" (letters n')
  end.

(** The handles that are allocated and not yet freed. *)
Definition outstanding (st : lib) : gset nat := dom (heap st).

(** A with-body for [nvlist_out]: the external call allocates a container
    with one entry, stores it in the slot and then fails. *)
Definition populate_then_fail (st : lib) : res unit * handle * lib :=
  let h := next_handle st in
  (Raise (RuntimeError "call failed"), h,
   Lib (<[h := [("out", NvBoolean)]]> (heap st)) (S h) (script st)).

(** A library state with one empty container, handle 1. *)
Definition one_container : lib := Lib {[1%nat := []]} 2%nat [].

(** A state in which the fourth fallible call fails with [ENOMEM]. *)
Definition fourth_call_fails : lib := Lib {[1%nat := []]} 2%nat [0; 0; 0; 12].




(** The container [h] is allocated and holds an entry. *)
Definition filled (h : handle) (st : lib) : Prop :=
  exists x l, heap st !! h = Some (x :: l).

(** [keeps st st']: handles were only consumed, and every container
    handed out before [st] that held an entry still holds one. *)
Definition keeps (st st' : lib) : Prop :=
  (next_handle st <= next_handle st')%nat /\
  forall h, (h < next_handle st)%nat -> filled h st -> filled h st'.

(** What [_dict_to_nvlist] does to the containers that hold entries,
    however it ends; and when it returns on a dictionary with an item,
    its own container holds an entry. *)
Definition encode_keeps (v : pyval) : Prop :=
  forall t st r st',
    _dict_to_nvlist v t st = (r, st') ->
    keeps st st' /\
    (forall kv items, v = PyDict (kv :: items) -> (t < next_handle st)%nat ->
       r = Ok tt -> filled t st').

(** Induction on a value through the values of its items, when it is a
    dictionary. *)
Section pyval_induction.
Variable P : pyval -> Prop.
Hypothesis Hleaf : forall v, (forall items, v <> PyDict items) -> P v.
Hypothesis Hdict :
  forall items, Forall (fun kv => P (snd kv)) items -> P (PyDict items).

Fixpoint pyval_dict_ind (v : pyval) : P v :=
  match v with
  | PyDict items =>
      Hdict items
        ((fix go (l : list (pyval * pyval)) : Forall (fun kv => P (snd kv)) l :=
            match l with
            | [] => @List.Forall_nil _ _
            | kv :: l' => @List.Forall_cons _ _ kv l' (pyval_dict_ind (snd kv)) (go l')
            end) items)
  | v' => Hleaf v' ltac:(discriminate)
  end.
End pyval_induction.

(** * Theorems *)

(** ** NameSyntax *)

Lemma letters_length (n : nat) : String.length (letters n) = n.
Proof. induction n; simpl; congruence. Qed.

Lemma allowed_grammar_char (c : ascii) : allowed c = true <-> grammar_char c.
Proof.
  unfold grammar_char. split.
  - destruct c as [[] [] [] [] [] [] [] []]; vm_compute; intros H;
      first [ discriminate H | tauto ].
  - intros [H | [H | [H | [H | [H | [H | H]]]]]]; try (subst c; reflexivity);
      destruct c as [[] [] [] [] [] [] [] []]; vm_compute in H |- *;
      first [ discriminate H | reflexivity ].
Qed.

Lemma split_not_nil (sep : ascii) (s : string) : split sep s <> [].
Proof.
  destruct s as [| c r]; simpl; [discriminate |].
  destruct (Ascii.eqb c sep); [discriminate |].
  destruct (split sep r); discriminate.
Qed.

Lemma join_split (sep : ascii) (s : string) : join sep (split sep s) = s.
Proof.
  induction s as [| c r IH]; simpl; [reflexivity |].
  destruct (Ascii.eqb c sep) eqn:E.
  - apply Ascii.eqb_eq in E. subst c.
    pose proof (split_not_nil sep r) as Hne.
    destruct (split sep r) as [| h t] eqn:Es; [congruence |].
    change (join sep (EmptyString :: h :: t)) with (String sep (join sep (h :: t))).
    now rewrite IH.
  - pose proof (split_not_nil sep r) as Hne.
    destruct (split sep r) as [| h t] eqn:Es; [congruence |].
    destruct t as [| h' t'].
    + simpl in *. now rewrite IH.
    + change (join sep (String c h :: h' :: t'))
        with (String c (h ++ String sep (join sep (h' :: t')))).
      change (join sep (h :: h' :: t')) with (h ++ String sep (join sep (h' :: t'))) in IH.
      now rewrite IH.
Qed.

Lemma split_app_sep (sep : ascii) (c rest : string) :
  char_in sep c = false ->
  split sep (c ++ String sep rest) = c :: split sep rest.
Proof.
  induction c as [| x c IH]; simpl; intros H.
  - now rewrite Ascii.eqb_refl.
  - apply orb_false_iff in H as [H1 H2].
    rewrite Ascii.eqb_sym in H1. rewrite H1.
    now rewrite (IH H2).
Qed.

Lemma split_no_sep (sep : ascii) (c : string) :
  char_in sep c = false -> split sep c = [c].
Proof.
  induction c as [| x c IH]; simpl; intros H; [reflexivity |].
  apply orb_false_iff in H as [H1 H2].
  rewrite Ascii.eqb_sym in H1. rewrite H1.
  now rewrite (IH H2).
Qed.

Lemma split_join (sep : ascii) (comps : list string) :
  comps <> [] ->
  Forall (fun c => char_in sep c = false) comps ->
  split sep (join sep comps) = comps.
Proof.
  induction comps as [| c rest IH]; intros Hne Hall; [congruence |].
  inversion Hall as [| ? ? Hc Hrest]; subst.
  destruct rest as [| c' rest'].
  - simpl. now apply split_no_sep.
  - change (join sep (c :: c' :: rest')) with (c ++ String sep (join sep (c' :: rest'))).
    rewrite split_app_sep by assumption.
    f_equal. apply IH; [discriminate | assumption].
Qed.

Lemma all_chars_In (p : ascii -> bool) (s : string) :
  all_chars p s = true <-> forall x, In x (list_ascii_of_string s) -> p x = true.
Proof.
  induction s as [| c r IH]; simpl.
  - split; [intros _ x [] | reflexivity].
  - rewrite andb_true_iff, IH. split.
    + intros [Hc Hr] x [<- | Hx]; auto.
    + intros H. split; [apply H; now left | intros x Hx; apply H; now right].
Qed.

Lemma all_chars_no_sep (p : ascii -> bool) (sep : ascii) (s : string) :
  p sep = false -> all_chars p s = true -> char_in sep s = false.
Proof.
  intros Hsep. induction s as [| c r IH]; simpl; [reflexivity |].
  intros H. apply andb_true_iff in H as [Hc Hr].
  rewrite (IH Hr), orb_false_r.
  destruct (Ascii.eqb sep c) eqn:E; [| reflexivity].
  apply Ascii.eqb_eq in E. subst c. congruence.
Qed.

Lemma valid_component_grammar (c : string) :
  _is_valid_name_component c = true <-> grammar_component c.
Proof.
  unfold _is_valid_name_component, grammar_component.
  rewrite andb_true_iff, all_chars_In. split.
  - intros [Ht Ha]. split.
    + destruct c; [discriminate | discriminate].
    + intros x Hx. apply allowed_grammar_char. auto.
  - intros [Hne Ha]. split.
    + destruct c; [congruence | reflexivity].
    + intros x Hx. apply allowed_grammar_char. auto.
Qed.

Lemma length_split (sep : ascii) (s : string) :
  List.length (split sep s) = S (count_char sep s).
Proof.
  induction s as [| c r IH]; simpl; [reflexivity |].
  destruct (Ascii.eqb c sep); simpl.
  - now rewrite IH.
  - destruct (split sep r) as [| h t]; simpl in *; lia.
Qed.

Lemma join_truthy (sep : ascii) (c : string) (rest : list string) :
  c <> EmptyString -> truthy (join sep (c :: rest)) = true.
Proof.
  intros Hne. destruct c as [| x c]; [congruence |].
  destruct rest; reflexivity.
Qed.

Lemma valid_fs_name_grammar (s : string) :
  _is_valid_fs_name s = true <-> fs_name_grammar s.
Proof.
  unfold _is_valid_fs_name, fs_name_grammar. rewrite andb_true_iff. split.
  - intros [_ Hall]. exists (split "/" s). split; [apply split_not_nil |].
    split; [symmetry; apply join_split |].
    apply List.Forall_forall. intros c Hc. apply valid_component_grammar.
    rewrite List.forallb_forall in Hall. now apply Hall.
  - intros (comps & Hne & -> & Hall).
    assert (Hvalid : Forall (fun c => _is_valid_name_component c = true) comps).
    { eapply List.Forall_impl; [| exact Hall]. intros c Hc. now apply valid_component_grammar. }
    assert (Hsep : Forall (fun c => char_in "/" c = false) comps).
    { eapply List.Forall_impl; [| exact Hvalid]. intros c Hc.
      apply andb_true_iff in Hc as [_ Hc].
      now apply (all_chars_no_sep allowed). }
    split.
    + destruct comps as [| c rest]; [congruence |].
      apply join_truthy. inversion Hall as [| ? ? [Hc _] _]. exact Hc.
    + rewrite split_join by assumption.
      apply List.forallb_forall. rewrite List.Forall_forall in Hvalid. exact Hvalid.
Qed.

(** C8.  The filesystem-name validator accepts exactly the strings of the
    naming grammar: one or more [/]-separated components, each non-empty
    and made of letters, digits and [-_.: ].  ["pool/fs"] is accepted,
    ["pool//fs"] and the empty name are refused and classified as
    name-invalid, and a 256-character name that the validator accepts is
    classified as name-too-long, not name-invalid. *)
Theorem fs_name_validator_is_grammar :
  (forall s, _is_valid_fs_name s = true <-> fs_name_grammar s) /\
  _is_valid_fs_name "pool/fs" = true /\
  _is_valid_fs_name "pool//fs" = false /\
  _is_valid_fs_name "" = false /\
  lzc_create_xlate_error EINVAL "pool//fs" = Raise (Lzc (NameInvalid (Some "pool//fs"))) /\
  lzc_create_xlate_error EINVAL "" = Raise (Lzc (NameInvalid (Some ""))) /\
  (forall name,
      _is_valid_fs_name name = true -> String.length name = 256%nat ->
      lzc_create_xlate_error EINVAL name = Raise (Lzc (NameTooLong (Some name))) /\
      lzc_rollback_xlate_error EINVAL name = Raise (Lzc (NameTooLong (Some name))) /\
      (forall origin, _is_valid_snap_name origin = true ->
         lzc_clone_xlate_error EINVAL name origin = Raise (Lzc (NameTooLong (Some name))))).
Proof.
  split; [exact valid_fs_name_grammar |].
  repeat (split; [reflexivity |]).
  intros name Hv Hl.
  unfold lzc_create_xlate_error, lzc_rollback_xlate_error, lzc_clone_xlate_error.
  rewrite Hv, Hl. repeat split.
  intros origin Ho. now rewrite Ho.
Qed.

Lemma fs_name_validator_is_grammar_witness :
  _is_valid_fs_name (letters 256) = true /\
  String.length (letters 256) = 256%nat /\
  fs_name_grammar (letters 256) /\
  lzc_create_xlate_error EINVAL (letters 256)
    = Raise (Lzc (NameTooLong (Some (letters 256)))).
Proof.
  assert (Hv : _is_valid_fs_name (letters 256) = true) by (vm_compute; reflexivity).
  destruct fs_name_validator_is_grammar as (Hiff & _ & _ & _ & _ & _ & Hlong).
  split; [exact Hv |]. split; [apply letters_length |].
  split; [now apply Hiff |].
  now apply (Hlong (letters 256) Hv (letters_length 256)).
Defined.

(** C10.  A name that the snapshot validator accepts holds exactly one
    [@], and a name that the bookmark validator accepts holds exactly one
    [#]; ["pool/fs@a@b"] and ["pool/fs"] are refused as snapshot names,
    ["pool/fs#a#b"] and ["pool/fs"] as bookmark names, although each of
    their segments is well formed. *)
Theorem snap_and_bmark_names_have_one_separator :
  (forall s, _is_valid_snap_name s = true -> count_char "@" s = 1%nat) /\
  (forall s, _is_valid_bmark_name s = true -> count_char "#" s = 1%nat) /\
  _is_valid_snap_name "pool/fs@a@b" = false /\
  _is_valid_snap_name "pool/fs" = false /\
  _is_valid_bmark_name "pool/fs#a#b" = false /\
  _is_valid_bmark_name "pool/fs" = false /\
  forallb _is_valid_fs_name ["pool/fs"; "a"; "b"] = true.
Proof.
  split; [| split; [| repeat split]].
  - intros s H. unfold _is_valid_snap_name in H.
    pose proof (length_split "@" s) as Hlen.
    destruct (split "@" s) as [| a [| b [| c t]]]; try discriminate H.
    simpl in Hlen. lia.
  - intros s H. unfold _is_valid_bmark_name in H.
    pose proof (length_split "#" s) as Hlen.
    destruct (split "#" s) as [| a [| b [| c t]]]; try discriminate H.
    simpl in Hlen. lia.
Qed.

Lemma snap_and_bmark_names_have_one_separator_witness :
  _is_valid_snap_name "pool/fs@s1" = true /\ count_char "@" "pool/fs@s1" = 1%nat /\
  _is_valid_bmark_name "pool/fs#b1" = true /\ count_char "#" "pool/fs#b1" = 1%nat.
Proof.
  split; [reflexivity |]. split.
  - apply (proj1 snap_and_bmark_names_have_one_separator "pool/fs@s1"). reflexivity.
  - split; [reflexivity |].
    apply (proj1 (proj2 snap_and_bmark_names_have_one_separator) "pool/fs#b1"). reflexivity.
Defined.

(** ** ErrorClassifier *)

Lemma ltb_fits (name : string) :
  (MAXNAMELEN <? String.length name)%nat = negb (fits name).
Proof. unfold fits. apply Nat.ltb_antisym. Qed.










Lemma classifiers_return_iff_zero (ret : Z) :
  (forall name, lzc_create_xlate_error ret name = Ok tt <-> ret = 0) /\
  (forall name origin, lzc_clone_xlate_error ret name origin = Ok tt <-> ret = 0) /\
  (forall name, lzc_rollback_xlate_error ret name = Ok tt <-> ret = 0) /\
  (forall errlist snaps, lzc_snapshot_xlate_errors ret errlist snaps = Ok tt <-> ret = 0) /\
  (forall errlist holds, lzc_release_xlate_errors ret errlist holds = Ok tt <-> ret = 0).
Proof.
  unfold lzc_create_xlate_error, lzc_clone_xlate_error, lzc_rollback_xlate_error,
    lzc_snapshot_xlate_errors, lzc_release_xlate_errors, _handleErrList.
  destruct (Z.eqb ret 0) eqn:E.
  - apply Z.eqb_eq in E. repeat split; auto.
  - apply Z.eqb_neq in E. repeat split; try (intros; contradiction).
    + intros H. exfalso. repeat match type of H with
        | (if ?c then _ else _) = _ => destruct c
        end; discriminate H.
    + intros H. exfalso. repeat match type of H with
        | (if ?c then _ else _) = _ => destruct c
        end; discriminate H.
    + intros H. exfalso. repeat match type of H with
        | (if ?c then _ else _) = _ => destruct c
        end; discriminate H.
    + intros H. exfalso. destruct errlist.
      * destruct (snapshot_map snaps ret _); discriminate H.
      * destruct (collect_errors _ _); discriminate H.
    + intros H. exfalso. destruct errlist.
      * destruct (release_map holds ret _); discriminate H.
      * destruct (collect_errors _ _); discriminate H.
Qed.

(** C6, at the inputs where the code departs from it.  A status other
    than 0, [EINVAL] and [ENOENT] makes [lzc_rollback_xlate_error] raise
    [AttributeError], not a failure value of the taxonomy.  The mapper of
    [lzc_release_xlate_errors] puts a one-element tuple into the item list
    on [ENOTSUP] and [None] on an [EINVAL] that none of its tests
    explains. *)
Theorem rollback_and_release_slips :
  lzc_rollback_xlate_error EBUSY "pool/fs" = Raise (AttributeError "lzc_exc") /\
  lzc_release_xlate_errors ENOTSUP [] [("pool/fs@s", ["tag"])]
    = Raise (LzcBatch HoldReleaseFailure [ObjTuple1 (FeatureNotSupported (Some "pool"))] 0) /\
  lzc_release_xlate_errors EINVAL [] [("pool/fs@s", ["tag"])]
    = Raise (LzcBatch HoldReleaseFailure [ObjNone] 0).
Proof. repeat split. Qed.

(** ** NvlistCodec: sequences *)

(** C5, at the inputs where the code departs from it.  Encoding reaches
    a sequence at line 205 only, which calls [_nvlist_add_array] without
    the key: for every sequence, of one variant or of several, the call
    raises the [TypeError] of the missing argument.  The check of lines
    116-121 is not reached, and the exception says nothing of the
    elements: a string followed by an integer and two strings fail
    alike. *)
Theorem sequence_values_raise_arity_error :
  (forall key elems rest nvlist st,
     _dict_to_nvlist (PyDict ((PyStr key, PyList elems) :: rest)) nvlist st
     = (Raise (TypeError "_nvlist_add_array() takes exactly 3 arguments (2 given)"), st)) /\
  _dict_to_nvlist (PyDict [(PyStr "k", PyList [PyStr "a"; PyInt 1])]) 1%nat one_container
  = (Raise (TypeError "_nvlist_add_array() takes exactly 3 arguments (2 given)"),
     one_container) /\
  _dict_to_nvlist (PyDict [(PyStr "k", PyList [PyStr "a"; PyStr "b"])]) 1%nat one_container
  = (Raise (TypeError "_nvlist_add_array() takes exactly 3 arguments (2 given)"),
     one_container) /\
  missing_colons = [117; 156; 220; 250]%nat.
Proof. repeat split. Qed.

(** ** NvlistCodec: integers and the well-known keys *)

(** C7, at the inputs where the code departs from it.  The table gives
    the 32-bit suffixes of the four well-known keys, but line 213 never
    reaches it: encoding any integer value raises [NameError] on [get],
    before an accessor is chosen, and the container stays as it was. *)
Theorem integer_values_raise_name_error :
  dict_lookup "rewind-request" _prop_name_to_type_str = Some "uint32" /\
  dict_lookup "type" _prop_name_to_type_str = Some "uint32" /\
  dict_lookup "N_MORE_ERRORS" _prop_name_to_type_str = Some "int32" /\
  dict_lookup "pool_context" _prop_name_to_type_str = Some "int32" /\
  (forall key n rest nvlist st,
     _dict_to_nvlist (PyDict ((PyStr key, PyInt n) :: rest)) nvlist st
     = (Raise (NameError "get"), st)) /\
  _dict_to_nvlist (PyDict [(PyStr "type", PyInt 1)]) 1%nat one_container
  = (Raise (NameError "get"), one_container).
Proof. repeat split. Qed.

(** ** NvlistCodec: the output mode *)

Lemma nvlist_out_body_raises
    (props : list (pyval * pyval)) (body : lib -> res unit * handle * lib)
    (st st1 : lib) (e : exn) (h : handle) :
  body st = (Raise e, h, st1) ->
  nvlist_out props body st = (NameError "nvlist", props, st1).
Proof. unfold nvlist_out. now intros ->. Qed.

(** C9, at the input where the code departs from it.  The with-body
    stores a fresh container in the slot and raises.  The dictionary is
    left as it was, as the claim says; but the [finally] clause raises
    [NameError] on [nvlist] before it reaches [nvlist_free], and the
    container stays allocated. *)
Theorem nvlist_out_leaks_when_body_raises :
  let props := [(PyStr "old", PyNone)] in
  let '(e, props', st') := nvlist_out props populate_then_fail one_container in
  e = NameError "nvlist" /\
  props' = props /\
  heap st' !! 2%nat = Some [("out", NvBoolean)] /\
  outstanding st' = {[1%nat; 2%nat]}.
Proof.
  cbn. repeat split.
Qed.

(** ** NvlistCodec: sequences of nested maps *)

(** C2, at the inputs where the code departs from it.  As the module
    calls it (line 205), encoding a sequence raises the [TypeError] of the
    missing argument inside [nvlist_in], whose populating call (line 233)
    stands before the [try]: the container that [nvlist_in] allocated
    stays outstanding, whatever the sequence holds.  As the function is
    written, called with its three parameters: the third of four nested
    maps is being populated when a call fails, in the first run the
    allocation for its own nested map, in the second the accessor that
    adds its string; the exception leaves [_nvlist_add_array] at line 132,
    past the release of lines 133-137, and the three sub-containers
    allocated so far stay outstanding.  When it is [nvlist_alloc] for the
    third map that fails, the release of lines 133-137 runs and nothing
    is left. *)
Theorem sequence_of_maps_leaves_containers_outstanding :
  (forall (A : Type) (body : handle -> M A) key elems rest hp n,
     nvlist_in (PyDict ((PyStr key, PyList elems) :: rest)) body (Lib hp n [])
     = (Raise (TypeError "_nvlist_add_array() takes exactly 3 arguments (2 given)"),
        Lib (<[n := []]> hp) (S n) [])) /\
  (let '(r, st') :=
     nvlist_in
       (PyDict [(PyStr "k", PyList [PyDict []; PyDict []; PyDict [(PyInt 1, PyNone)]; PyDict []])])
       (fun _ => ret tt) one_container in
   r = Raise (TypeError "_nvlist_add_array() takes exactly 3 arguments (2 given)") /\
   outstanding one_container = {[1%nat]} /\
   outstanding st' = {[1%nat; 2%nat]}) /\
  outstanding fourth_call_fails = {[1%nat]} /\
  (let '(r, st') :=
     _nvlist_add_array 1%nat "k"
       [PyDict []; PyDict []; PyDict [(PyStr "a", PyDict [])]; PyDict []]
       fourth_call_fails in
   r = Raise (MemoryError "nvlist_alloc failed") /\
   outstanding st' = {[1%nat; 2%nat; 3%nat; 4%nat]}) /\
  (let '(r, st') :=
     _nvlist_add_array 1%nat "k"
       [PyDict []; PyDict []; PyDict [(PyStr "a", PyStr "x")]; PyDict []]
       fourth_call_fails in
   r = Raise (MemoryError "nvlist_add failed") /\
   outstanding st' = {[1%nat; 2%nat; 3%nat; 4%nat]}) /\
  (let '(r, st') :=
     _nvlist_add_array 1%nat "k"
       [PyDict []; PyDict [(PyStr "a", PyStr "x")]; PyDict []; PyDict []]
       fourth_call_fails in
   r = Raise (MemoryError "nvlist_alloc failed") /\
   outstanding st' = {[1%nat]}).
Proof.
  split; [| vm_compute; repeat split].
  intros A body key elems rest hp n. reflexivity.
Qed.

(** ** NvlistCodec: the round trip *)

Lemma dict_to_nvlist_cons (key : string) (v : pyval) (rest : list (pyval * pyval))
    (nvlist : handle) :
  _dict_to_nvlist (PyDict ((PyStr key, v) :: rest)) nvlist
  = (r <- add_value nvlist key v ;;
     if negb (Z.eqb r 0) then raise (MemoryError "nvlist_add failed")
     else _dict_to_nvlist (PyDict rest) nvlist).
Proof. destruct v; reflexivity. Qed.

Lemma dict_to_nvlist_bad_key (k v : pyval) (rest : list (pyval * pyval))
    (nvlist : handle) (st : lib) :
  (forall key, k <> PyStr key) ->
  _dict_to_nvlist (PyDict ((k, v) :: rest)) nvlist st
  = (Raise (TypeError ("Unsupported key type " ++ type_name k)), st).
Proof. intros Hk. destruct k; try reflexivity. now destruct (Hk s). Qed.

Lemma next_status_spec (st st' : lib) (r : res Z) :
  next_status st = (r, st') ->
  heap st' = heap st /\ next_handle st' = next_handle st /\ exists s, r = Ok s.
Proof.
  unfold next_status. destruct (script st); intros [= <- <-]; simpl; eauto.
Qed.

Lemma type_info_raises (typeid : data_type) :
  _type_info typeid = Raise (NameError "TypeInfo").
Proof. reflexivity. Qed.

Lemma nvlist_to_dict_raises (hash_order : list (pyval * pyval) -> list (pyval * pyval))
    (name : string) (v : nvvalue) (rest : list (string * nvvalue))
    (props : list (pyval * pyval)) :
  _nvlist_to_dict hash_order ((name, v) :: rest) props = Raise (NameError "TypeInfo").
Proof. unfold _nvlist_to_dict. simpl. now destruct v. Qed.

Lemma keeps_refl (st : lib) : keeps st st.
Proof. split; [lia | auto]. Qed.

Lemma keeps_trans (st st1 st2 : lib) : keeps st st1 -> keeps st1 st2 -> keeps st st2.
Proof.
  intros [Hn1 H1] [Hn2 H2]. split; [lia |].
  intros h Hh Hf. apply H2; [lia | now apply H1].
Qed.

Lemma nvl_add_cons (name : string) (v : nvvalue) (l : list (string * nvvalue)) :
  exists x l', nvl_add name v l = x :: l'.
Proof. unfold nvl_add. destruct (dict_remove name l) as [| y l']; simpl; eauto. Qed.

Lemma nvlist_add_keeps (t : nat) (name : string) (v : nvvalue) (st st' : lib) (r : res Z) :
  nvlist_add t name v st = (r, st') ->
  keeps st st' /\ next_handle st' = next_handle st /\ (r = Ok 0 -> filled t st').
Proof.
  unfold nvlist_add, bind.
  destruct (next_status st) as [r1 st1] eqn:E.
  apply next_status_spec in E as (Hh & Hn & s & ->).
  destruct (Z.eqb s 0) eqn:Es.
  - destruct (heap st1 !! t) as [l |] eqn:El; intros [= <- <-]; simpl.
    + destruct (nvl_add_cons (c_string name) v l) as (y & l' & Hy).
      assert (Ht : filled t (Lib (<[t := nvl_add (c_string name) v l]> (heap st1))
                                 (next_handle st1) (script st1))).
      { exists y, l'. simpl. rewrite Hy. apply lookup_insert_eq. }
      split; [| split; [exact Hn | intros _; exact Ht]].
      split; [simpl; lia |].
      intros h _ (x & l0 & Hx). destruct (decide (h = t)) as [-> | Hne]; [exact Ht |].
      exists x, l0. simpl. rewrite lookup_insert_ne by congruence. now rewrite Hh.
    + split; [| split; [exact Hn | discriminate]].
      split; [lia |]. intros h _ (x & l0 & Hx). exists x, l0. now rewrite Hh.
  - unfold ret. intros [= <- <-].
    split; [| split; [exact Hn | intros [= ->]; discriminate]].
    split; [lia |]. intros h _ (x & l0 & Hx). exists x, l0. now rewrite Hh.
Qed.

Lemma nvlist_add_nvlist_keeps (t sub : nat) (name : string) (st st' : lib) (r : res Z) :
  nvlist_add_nvlist t name sub st = (r, st') ->
  keeps st st' /\ next_handle st' = next_handle st /\ (r = Ok 0 -> filled t st').
Proof.
  unfold nvlist_add_nvlist. destruct (heap st !! sub).
  - apply nvlist_add_keeps.
  - intros [= <- <-]. split; [apply keeps_refl | split; [reflexivity | discriminate]].
Qed.

Lemma nvlist_in_with_keeps (v : pyval) (t : nat) (key : string) (st st' : lib) (r : res Z) :
  encode_keeps v ->
  nvlist_in_with (_dict_to_nvlist v) (fun sub_nvlist => nvlist_add_nvlist t key sub_nvlist) st
    = (r, st') ->
  keeps st st' /\ ((t < next_handle st)%nat -> r = Ok 0 -> filled t st').
Proof.
  intros IH. unfold nvlist_in_with, nvlist_alloc, bind.
  destruct (next_status st) as [r1 st1] eqn:E.
  apply next_status_spec in E as (Hh & Hn & s & ->).
  destruct (Z.eqb s 0) eqn:Es; simpl.
  - set (n := next_handle st1).
    set (st2 := Lib (<[n := []]> (heap st1)) (S n) (script st1)).
    assert (K2 : keeps st st2).
    { split; [simpl; lia |]. intros h Hlt (x & l & Hx). exists x, l. simpl.
      rewrite lookup_insert_ne by lia. now rewrite Hh. }
    destruct (_dict_to_nvlist v n st2) as [[[] | e] st3] eqn:Ep.
    + destruct (IH _ _ _ _ Ep) as [K3 _].
      unfold try_finally.
      destruct (nvlist_add_nvlist t key n st3) as [r4 st4] eqn:Ea.
      destruct (nvlist_add_nvlist_keeps _ _ _ _ _ _ Ea) as (K4 & Hn4 & Hfill).
      unfold nvlist_free. intros [= <- <-].
      assert (Hle : (S n <= next_handle st4)%nat).
      { destruct K3 as [K3 _]. simpl in K3. lia. }
      assert (Hdel : forall h, (h < S n)%nat -> h <> n -> filled h st4 ->
                filled h (Lib (delete n (heap st4)) (next_handle st4) (script st4))).
      { intros h _ Hne (x & l & Hx). exists x, l. simpl.
        now rewrite lookup_delete_ne by congruence. }
      split.
      * split; [simpl; lia |].
        intros h Hlt Hf. apply Hdel; [lia | lia |].
        destruct K4 as [_ K4]. apply K4; [destruct K3 as [K3 _]; simpl in K3; lia |].
        destruct K3 as [_ K3]. apply K3; [simpl; lia |].
        destruct K2 as [_ K2]. now apply K2.
      * intros Hlt Hr. apply Hdel; [lia | lia | now apply Hfill].
    + destruct (IH _ _ _ _ Ep) as [K3 _]. intros [= <- <-].
      split; [exact (keeps_trans _ _ _ K2 K3) | discriminate].
  - destruct (negb (Z.eqb s 0)) eqn:En; [| now rewrite Es in En].
    unfold raise. intros [= <- <-]. split; [| discriminate].
    split; [lia |]. intros h _ (x & l & Hx). exists x, l. now rewrite Hh.
Qed.

Lemma add_value_keeps (v : pyval) (t : nat) (key : string) (st st' : lib) (r : res Z) :
  encode_keeps v ->
  add_value t key v st = (r, st') ->
  keeps st st' /\ ((t < next_handle st)%nat -> r = Ok 0 -> filled t st').
Proof.
  intros IH. destruct v as [| b | n | s | | c n | elems | items]; simpl;
    try (unfold raise; intros [= <- <-]; split; [apply keeps_refl | discriminate]).
  - intros H. apply nvlist_add_keeps in H as (K & _ & Hf). auto.
  - intros H. apply nvlist_add_keeps in H as (K & _ & Hf). auto.
  - intros H. apply nvlist_add_keeps in H as (K & _ & Hf). auto.
  - destruct (_type_to_suffix c) as [sfx |];
      [| unfold raise; intros [= <- <-]; split; [apply keeps_refl | discriminate]].
    unfold call_nvlist_add. destruct (String.eqb sfx "boolean");
      [unfold raise; intros [= <- <-]; split; [apply keeps_refl | discriminate] |].
    destruct (num_type_of_suffix sfx);
      [| unfold raise; intros [= <- <-]; split; [apply keeps_refl | discriminate]].
    intros H. apply nvlist_add_keeps in H as (K & _ & Hf). auto.
  - unfold nvlist_in. now apply nvlist_in_with_keeps.
Qed.

Lemma dict_loop_keeps (items : list (pyval * pyval)) :
  Forall (fun kv => encode_keeps (snd kv)) items ->
  forall t st r st', _dict_to_nvlist (PyDict items) t st = (r, st') -> keeps st st'.
Proof.
  induction 1 as [| [k v] items Hv _ IHitems]; intros t st r st' H.
  - inversion H. apply keeps_refl.
  - destruct k as [| | | key | | | |];
      try (rewrite dict_to_nvlist_bad_key in H by discriminate; inversion H;
           apply keeps_refl).
    rewrite dict_to_nvlist_cons in H. unfold bind in H.
    destruct (add_value t key v st) as [[r1 | e] st1] eqn:Ea.
    + destruct (add_value_keeps _ _ _ _ _ _ Hv Ea) as [K1 _].
      destruct (negb (Z.eqb r1 0)).
      * inversion H. now subst.
      * apply IHitems in H. exact (keeps_trans _ _ _ K1 H).
    + destruct (add_value_keeps _ _ _ _ _ _ Hv Ea) as [K1 _].
      inversion H. now subst.
Qed.

Lemma dict_to_nvlist_keeps (v : pyval) : encode_keeps v.
Proof.
  induction v as [v Hleaf | items IH] using pyval_dict_ind.
  - intros t st r st' H.
    assert (Hst : st' = st).
    { destruct v; simpl in H; try (now inversion H). now destruct (Hleaf items). }
    subst st'. split; [apply keeps_refl |]. intros kv items ->. now destruct (Hleaf (kv :: items)).
  - intros t st r st' H. split; [exact (dict_loop_keeps _ IH _ _ _ _ H) |].
    intros kv rest [= ->] Hlt ->.
    apply List.Forall_cons_iff in IH as [Hv Hrest].
    destruct kv as [k v]. simpl in Hv.
    destruct k as [| | | key | | | |];
      try (rewrite dict_to_nvlist_bad_key in H by discriminate; discriminate H).
    rewrite dict_to_nvlist_cons in H. unfold bind in H.
    destruct (add_value t key v st) as [[r1 | e] st1] eqn:Ea; [| discriminate H].
    destruct (add_value_keeps _ _ _ _ _ _ Hv Ea) as [[Hn1 K1] Hfill].
    destruct (Z.eqb r1 0) eqn:Er; cbn [negb] in H; [| discriminate H].
    apply Z.eqb_eq in Er. subst r1.
    destruct (dict_loop_keeps _ Hrest _ _ _ _ H) as [_ K2].
    apply K2; [lia | now apply Hfill].
Qed.

(** C1, at the inputs where the code departs from it.  The compiler
    refuses the file at four headers; with the colons supplied, loading
    the module stops at line 71 on the unbound [namedtuple], before any
    function of the codec is defined, and [TypeInfo] is never bound.  With
    the functions read as they are written, [_type_info] raises
    [NameError] for every tag, so decoding a container that holds an
    entry raises, whatever the entry; the map [{"n": uint8_t(5)}] is
    encoded and its decoding raises; and for every map with an item, in
    every state of the library, encoding it and decoding the result
    raises: no such map comes back. *)
Theorem round_trip_raises_name_error :
  missing_colons = [117; 156; 220; 250]%nat /\
  import_nvlist
  = Stopped 71 (NameError "namedtuple")
      ["contextmanager"; "libnvpair"; "_ffi"; "_lib"; "_ffi_cast";
       "uint8_t"; "int8_t"; "uint16_t"; "int16_t"; "uint32_t"; "int32_t";
       "uint64_t"; "int64_t"; "boolean_t"; "uchar_t"; "_type_to_suffix"] /\
  is_bound module_globals "TypeInfo" = false /\
  (forall typeid, _type_info typeid = Raise (NameError "TypeInfo")) /\
  (forall hash_order name v rest props,
     _nvlist_to_dict hash_order ((name, v) :: rest) props = Raise (NameError "TypeInfo")) /\
  (forall hash_order,
     nvlist_in (PyDict [(PyStr "n", PyCData uint8_t 5)])
       (fun nvlist => nvlist_to_dict_at hash_order nvlist []) one_container
     = (Raise (NameError "TypeInfo"), Lib {[1%nat := []]} 3%nat [])) /\
  (forall hash_order kv items st,
     exists e st',
       nvlist_in (PyDict (kv :: items))
         (fun nvlist => nvlist_to_dict_at hash_order nvlist []) st
       = (Raise e, st')).
Proof.
  split; [reflexivity |]. split; [reflexivity |]. split; [reflexivity |].
  split; [exact type_info_raises |]. split; [exact nvlist_to_dict_raises |].
  split; [intros hash_order; vm_compute; reflexivity |].
  intros hash_order kv items st.
  unfold nvlist_in, nvlist_in_with, nvlist_alloc, bind.
  destruct (next_status st) as [r1 st1] eqn:E.
  apply next_status_spec in E as (_ & _ & s & ->).
  destruct (Z.eqb s 0) eqn:Es; cbn -[_dict_to_nvlist].
  - set (n := next_handle st1).
    set (st2 := Lib (<[n := []]> (heap st1)) (S n) (script st1)).
    destruct (_dict_to_nvlist (PyDict (kv :: items)) n st2) as [[[] | e] st3] eqn:Ep;
      [| eauto].
    destruct (dict_to_nvlist_keeps _ _ _ _ _ Ep) as [_ Hfill].
    destruct (Hfill kv items eq_refl ltac:(simpl; lia) eq_refl) as (x & l & Hx).
    unfold try_finally, nvlist_to_dict_at. rewrite Hx.
    destruct x as [name v]. rewrite nvlist_to_dict_raises. simpl. eauto.
  - destruct (negb (Z.eqb s 0)) eqn:En; [| now rewrite Es in En].
    unfold raise. eauto.
Qed.

(** * Further properties *)

(** ** NameSyntax: how names decompose *)

Lemma split_app (sep : ascii) (a b : string) :
  split sep (a ++ String sep b) = (split sep a ++ split sep b)%list.
Proof.
  induction a as [| c a IH]; simpl.
  - now rewrite Ascii.eqb_refl.
  - destruct (Ascii.eqb c sep); [now rewrite IH |].
    rewrite IH. pose proof (split_not_nil sep a) as Hne.
    destruct (split sep a); [congruence | reflexivity].
Qed.

Lemma valid_fs_name_split (s : string) :
  _is_valid_fs_name s = forallb _is_valid_name_component (split "/" s).
Proof. unfold _is_valid_fs_name. now destruct s. Qed.

(** X1.  Joining two paths with [/] gives a valid filesystem name exactly
    when both paths are valid filesystem names. *)
Theorem valid_fs_name_join (a b : string) :
  _is_valid_fs_name (a ++ String "/" b) = _is_valid_fs_name a && _is_valid_fs_name b.
Proof.
  rewrite !valid_fs_name_split, split_app. apply List.forallb_app.
Qed.

Lemma valid_component_chars (c : string) (x : ascii) :
  _is_valid_name_component c = true -> allowed x = false -> char_in x c = false.
Proof.
  intros Hc Hx. apply andb_true_iff in Hc as [_ Hc].
  now apply (all_chars_no_sep allowed).
Qed.

Lemma char_in_app (x : ascii) (a b : string) :
  char_in x (a ++ b) = char_in x a || char_in x b.
Proof. induction a as [| c a IH]; simpl; [reflexivity |]. now rewrite IH, orb_assoc. Qed.

Lemma valid_fs_name_chars (s : string) (x : ascii) :
  _is_valid_fs_name s = true -> allowed x = false -> x <> "/"%char -> char_in x s = false.
Proof.
  intros Hs Hx Hne. apply valid_fs_name_grammar in Hs as (comps & _ & -> & Hall).
  induction Hall as [| c rest Hc Hrest IH]; [reflexivity |].
  apply valid_component_grammar in Hc.
  destruct rest as [| c' rest'].
  - simpl. now apply valid_component_chars.
  - change (join "/" (c :: c' :: rest')) with (c ++ String "/" (join "/" (c' :: rest'))).
    rewrite char_in_app. cbn [char_in].
    rewrite (valid_component_chars c x Hc Hx), IH. simpl.
    destruct (Ascii.eqb x "/") eqn:E; [| reflexivity].
    apply Ascii.eqb_eq in E. contradiction.
Qed.

Lemma before_first_app (is_sep : ascii -> bool) (a b : string) (x : ascii) :
  all_chars (fun c => negb (is_sep c)) a = true -> is_sep x = true ->
  before_first is_sep (a ++ String x b) = a.
Proof.
  intros Ha Hx. induction a as [| c a IH]; simpl.
  - now rewrite Hx.
  - simpl in Ha. apply andb_true_iff in Ha as [Hc Ha].
    apply negb_true_iff in Hc. rewrite Hc. f_equal. now apply IH.
Qed.

Lemma all_chars_not_in (p : ascii -> bool) (s : string) :
  (forall x, p x = false -> char_in x s = false) -> all_chars p s = true.
Proof.
  induction s as [| c s IH]; simpl; intros H; [reflexivity |].
  apply andb_true_iff. split.
  - destruct (p c) eqn:E; [reflexivity |].
    specialize (H c E). now rewrite Ascii.eqb_refl in H.
  - apply IH. intros x Hx. specialize (H x Hx). now apply orb_false_iff in H as [_ H].
Qed.

Lemma valid_with_separator (sep : ascii) (s : string) :
  allowed sep = false -> sep <> "/"%char ->
  (match split sep s with
   | [fs; c] => _is_valid_fs_name fs && _is_valid_name_component c
   | _ => false
   end = true
   <-> exists fs c, s = fs ++ String sep c /\
                    _is_valid_fs_name fs = true /\ _is_valid_name_component c = true).
Proof.
  intros Hsep Hne. split.
  - intros H. pose proof (join_split sep s) as Hj.
    destruct (split sep s) as [| fs [| c [| d t]]]; try discriminate H.
    apply andb_true_iff in H as [Hfs Hc]. exists fs, c. simpl in Hj. auto.
  - intros (fs & c & -> & Hfs & Hc).
    rewrite split_app.
    rewrite (split_no_sep sep fs) by now apply valid_fs_name_chars.
    rewrite (split_no_sep sep c) by now apply valid_component_chars.
    simpl. now rewrite Hfs, Hc.
Qed.

Lemma valid_snap_name_parts (s : string) :
  _is_valid_snap_name s = true ->
  exists fs c, s = fs ++ String "@" c /\
               _is_valid_fs_name fs = true /\ _is_valid_name_component c = true.
Proof. apply (valid_with_separator "@" s); [reflexivity | discriminate]. Qed.

Lemma valid_bmark_name_parts (s : string) :
  _is_valid_bmark_name s = true ->
  exists fs c, s = fs ++ String "#" c /\
               _is_valid_fs_name fs = true /\ _is_valid_name_component c = true.
Proof. apply (valid_with_separator "#" s); [reflexivity | discriminate]. Qed.

(** X2.  The snapshot validator accepts exactly the names [fs@c] and the
    bookmark validator exactly the names [fs#c], where [fs] is a valid
    filesystem name and [c] a valid name component. *)
Theorem snap_and_bmark_names_shape (s : string) :
  (_is_valid_snap_name s = true <->
   exists fs c, s = fs ++ String "@" c /\
                _is_valid_fs_name fs = true /\ _is_valid_name_component c = true) /\
  (_is_valid_bmark_name s = true <->
   exists fs c, s = fs ++ String "#" c /\
                _is_valid_fs_name fs = true /\ _is_valid_name_component c = true).
Proof.
  split.
  - apply (valid_with_separator "@" s); [reflexivity | discriminate].
  - apply (valid_with_separator "#" s); [reflexivity | discriminate].
Qed.

Lemma before_first_before_first (p q : ascii -> bool) (s : string) :
  (forall x, q x = true -> p x = true) ->
  before_first p (before_first q s) = before_first p s.
Proof.
  intros Hqp. induction s as [| c s IH]; simpl; [reflexivity |].
  destruct (q c) eqn:Eq.
  - simpl. now rewrite (Hqp c Eq).
  - simpl. destruct (p c); [reflexivity | now rewrite IH].
Qed.

Lemma before_first_prefix (p : ascii -> bool) (s : string) :
  exists rest, s = before_first p s ++ rest.
Proof.
  induction s as [| c s [rest IH]]; simpl; [now exists EmptyString |].
  destruct (p c).
  - now exists (String c s).
  - exists rest. change (String c s = String c (before_first p s ++ rest)).
    f_equal. exact IH.
Qed.

Lemma before_first_clean (p : ascii -> bool) (s : string) :
  all_chars (fun c => negb (p c)) (before_first p s) = true.
Proof.
  induction s as [| c s IH]; simpl; [reflexivity |].
  destruct (p c) eqn:E; [reflexivity |]. simpl. now rewrite E, IH.
Qed.

Lemma pool_of_fs_name (name : string) : _pool_name (_fs_name name) = _pool_name name.
Proof.
  apply before_first_before_first. intros x Hx.
  apply orb_true_iff in Hx as [Hx | Hx]; rewrite Hx; [now rewrite orb_true_r | apply orb_true_r].
Qed.

(** X3.  For every name: the pool of its filesystem part is its pool;
    taking the pool or the filesystem part twice changes nothing; the
    pool is a prefix of the filesystem part, which is a prefix of the
    name; and two names with the same filesystem part have the same
    pool. *)
Theorem pool_and_fs_name_laws (name : string) :
  _pool_name (_fs_name name) = _pool_name name /\
  _pool_name (_pool_name name) = _pool_name name /\
  _fs_name (_fs_name name) = _fs_name name /\
  _fs_name (_pool_name name) = _pool_name name /\
  (exists rest, name = _fs_name name ++ rest) /\
  (exists rest, _fs_name name = _pool_name name ++ rest) /\
  (forall other, _fs_name other = _fs_name name -> _pool_name other = _pool_name name).
Proof.
  assert (Hfs : forall n, _pool_name (_fs_name n) = _pool_name n).
  { intros n. apply before_first_before_first. intros x Hx.
    apply orb_true_iff in Hx as [Hx | Hx]; rewrite Hx; [now rewrite orb_true_r | apply orb_true_r]. }
  repeat split.
  - apply Hfs.
  - now apply before_first_before_first.
  - now apply before_first_before_first.
  - unfold _fs_name, _pool_name.
    set (p := fun c => (Ascii.eqb c "/" || Ascii.eqb c "@" || Ascii.eqb c "#")%char).
    set (q := fun c => (Ascii.eqb c "@" || Ascii.eqb c "#")%char).
    pose proof (before_first_clean p name) as Hclean.
    induction (before_first p name) as [| c s IH]; simpl; [reflexivity |].
    simpl in Hclean. apply andb_true_iff in Hclean as [Hc Hs].
    apply negb_true_iff in Hc. unfold p in Hc.
    apply orb_false_iff in Hc as [Hc H3]. apply orb_false_iff in Hc as [H1 H2].
    unfold q at 1. rewrite H2, H3. simpl. f_equal. now apply IH.
  - apply before_first_prefix.
  - rewrite <- Hfs. apply before_first_prefix.
  - intros other Heq. now rewrite <- (Hfs other), Heq, Hfs.
Qed.

Lemma valid_snap_parts (sep : ascii) (fs c : string) :
  (sep = "@" \/ sep = "#")%char ->
  _is_valid_fs_name fs = true ->
  _fs_name (fs ++ String sep c) = fs /\
  _pool_name (fs ++ String sep c) = _pool_name fs.
Proof.
  intros Hsep Hfs.
  assert (Hfsn : _fs_name (fs ++ String sep c) = fs).
  { apply before_first_app.
    - apply all_chars_not_in. intros x Hx. apply negb_false_iff in Hx.
      apply valid_fs_name_chars; [exact Hfs | |].
      + apply orb_true_iff in Hx as [Hx | Hx]; apply Ascii.eqb_eq in Hx; now subst x.
      + intros ->. discriminate Hx.
    - destruct Hsep as [-> | ->]; reflexivity. }
  split; [exact Hfsn |].
  now rewrite <- (pool_of_fs_name (fs ++ String sep c)), Hfsn.
Qed.

(** X4.  For a name [fs@c] or [fs#c] with a valid filesystem name [fs],
    [_fs_name] gives back [fs] and [_pool_name] the pool of [fs]; so the
    filesystem part of every name that the snapshot or the bookmark
    validator accepts is a valid filesystem name. *)
Theorem fs_name_of_valid_snapshot (s : string) :
  (forall fs c, _is_valid_fs_name fs = true ->
     _fs_name (fs ++ String "@" c) = fs /\ _fs_name (fs ++ String "#" c) = fs /\
     _pool_name (fs ++ String "@" c) = _pool_name fs /\
     _pool_name (fs ++ String "#" c) = _pool_name fs) /\
  (_is_valid_snap_name s = true -> _is_valid_fs_name (_fs_name s) = true) /\
  (_is_valid_bmark_name s = true -> _is_valid_fs_name (_fs_name s) = true).
Proof.
  split; [| split].
  - intros fs c Hfs.
    destruct (valid_snap_parts "@" fs c (or_introl eq_refl) Hfs) as [H1 H2].
    destruct (valid_snap_parts "#" fs c (or_intror eq_refl) Hfs) as [H3 H4]. auto.
  - intros H. apply valid_snap_name_parts in H as (fs & c & -> & Hfs & _).
    now rewrite (proj1 (valid_snap_parts "@" fs c (or_introl eq_refl) Hfs)).
  - intros H. apply valid_bmark_name_parts in H as (fs & c & -> & Hfs & _).
    now rewrite (proj1 (valid_snap_parts "#" fs c (or_intror eq_refl) Hfs)).
Qed.

Lemma fs_name_of_valid_snapshot_witness :
  _is_valid_snap_name "pool/fs@s1" = true /\
  _is_valid_fs_name (_fs_name "pool/fs@s1") = true.
Proof.
  split; [reflexivity |].
  apply (proj1 (proj2 (fs_name_of_valid_snapshot "pool/fs@s1"))). reflexivity.
Defined.

Lemma fs_name_no_separator (s : string) :
  _is_valid_fs_name s = true -> char_in "@" s = false /\ char_in "#" s = false.
Proof.
  intros H. split; apply valid_fs_name_chars; try exact H; try reflexivity; discriminate.
Qed.

Lemma count_char_in (x : ascii) (s : string) :
  char_in x s = false -> count_char x s = 0%nat.
Proof.
  induction s as [| c s IH]; simpl; [reflexivity |].
  intros H. apply orb_false_iff in H as [Hc Hs].
  rewrite Ascii.eqb_sym in Hc. now rewrite Hc, IH.
Qed.

(** X5.  No name is accepted by two of the three validators: a valid
    filesystem name is neither a valid snapshot name nor a valid bookmark
    name, and a valid snapshot name is not a valid bookmark name. *)
Theorem validators_are_exclusive (s : string) :
  (_is_valid_fs_name s = true ->
     _is_valid_snap_name s = false /\ _is_valid_bmark_name s = false) /\
  (_is_valid_snap_name s = true ->
     _is_valid_fs_name s = false /\ _is_valid_bmark_name s = false) /\
  (_is_valid_bmark_name s = true ->
     _is_valid_fs_name s = false /\ _is_valid_snap_name s = false).
Proof.
  assert (Hfs : _is_valid_fs_name s = true ->
                _is_valid_snap_name s = false /\ _is_valid_bmark_name s = false).
  { intros H. destruct (fs_name_no_separator s H) as [Ha Hb].
    unfold _is_valid_snap_name, _is_valid_bmark_name.
    now rewrite (split_no_sep "@" s Ha), (split_no_sep "#" s Hb). }
  assert (Hsb : _is_valid_snap_name s = true -> _is_valid_bmark_name s = false).
  { intros H. apply valid_snap_name_parts in H as (fs & c & -> & Hf & Hc).
    unfold _is_valid_bmark_name. rewrite split_no_sep; [reflexivity |].
    rewrite char_in_app. cbn [char_in].
    rewrite (proj2 (fs_name_no_separator fs Hf)).
    now rewrite (valid_component_chars c "#" Hc eq_refl). }
  split; [exact Hfs |]. split.
  - intros H. split; [| now apply Hsb].
    destruct (_is_valid_fs_name s) eqn:E; [| reflexivity].
    destruct (Hfs eq_refl). congruence.
  - intros H. split.
    + destruct (_is_valid_fs_name s) eqn:E; [| reflexivity].
      destruct (Hfs eq_refl). congruence.
    + destruct (_is_valid_snap_name s) eqn:E; [| reflexivity].
      specialize (Hsb eq_refl). congruence.
Qed.

Lemma validators_are_exclusive_witness :
  _is_valid_snap_name "pool/fs@s1" = true /\
  _is_valid_fs_name "pool/fs@s1" = false /\ _is_valid_bmark_name "pool/fs@s1" = false.
Proof.
  split; [reflexivity |].
  apply (proj1 (proj2 (validators_are_exclusive "pool/fs@s1"))). reflexivity.
Defined.

Lemma before_first_none (p : ascii -> bool) (s : string) :
  all_chars (fun c => negb (p c)) s = true -> before_first p s = s.
Proof.
  induction s as [| c s IH]; simpl; [reflexivity |].
  intros H. apply andb_true_iff in H as [Hc Hs]. apply negb_true_iff in Hc.
  rewrite Hc. f_equal. now apply IH.
Qed.

Lemma component_has_no_separator (c : string) :
  _is_valid_name_component c = true ->
  all_chars (fun x => negb (Ascii.eqb x "/" || Ascii.eqb x "@" || Ascii.eqb x "#")%char) c
  = true.
Proof.
  intros Hc. apply all_chars_not_in. intros x Hx. apply negb_false_iff in Hx.
  apply valid_component_chars; [exact Hc |].
  apply orb_true_iff in Hx as [Hx | Hx]; [apply orb_true_iff in Hx as [Hx | Hx] |];
    apply Ascii.eqb_eq in Hx; now subst x.
Qed.

Lemma pool_of_valid_fs_name (s : string) :
  _is_valid_fs_name s = true ->
  _is_valid_name_component (_pool_name s) = true /\
  List.hd EmptyString (split "/" s) = _pool_name s.
Proof.
  intros Hs. rewrite valid_fs_name_split in Hs.
  pose proof (join_split "/" s) as Hj. pose proof (split_not_nil "/" s) as Hne.
  destruct (split "/" s) as [| c rest]; [congruence |].
  simpl in Hs. apply andb_true_iff in Hs as [Hc _].
  assert (Hp : _pool_name s = c).
  { rewrite <- Hj. destruct rest as [| c' rest'].
    - simpl. apply before_first_none. now apply component_has_no_separator.
    - change (join "/" (c :: c' :: rest')) with (c ++ String "/" (join "/" (c' :: rest'))).
      apply before_first_app; [now apply component_has_no_separator | reflexivity]. }
  rewrite Hp. auto.
Qed.

(** X6.  The pool of every name that one of the three validators accepts
    is a valid name component (so it is not empty), and for a valid
    filesystem name it is the first of its [/]-separated components. *)
Theorem pool_of_valid_name_is_component (s : string) :
  (_is_valid_fs_name s = true ->
     _is_valid_name_component (_pool_name s) = true /\
     List.hd EmptyString (split "/" s) = _pool_name s) /\
  (_is_valid_snap_name s = true -> _is_valid_name_component (_pool_name s) = true) /\
  (_is_valid_bmark_name s = true -> _is_valid_name_component (_pool_name s) = true).
Proof.
  split; [apply pool_of_valid_fs_name |]. split; intros H.
  - apply valid_snap_name_parts in H as (fs & c & -> & Hfs & _).
    rewrite (proj2 (valid_snap_parts "@" fs c (or_introl eq_refl) Hfs)).
    now apply pool_of_valid_fs_name.
  - apply valid_bmark_name_parts in H as (fs & c & -> & Hfs & _).
    rewrite (proj2 (valid_snap_parts "#" fs c (or_intror eq_refl) Hfs)).
    now apply pool_of_valid_fs_name.
Qed.

Lemma pool_of_valid_name_is_component_witness :
  _is_valid_bmark_name "tank/home/user#b1" = true /\
  _is_valid_name_component (_pool_name "tank/home/user#b1") = true.
Proof.
  split; [reflexivity |].
  apply (proj2 (proj2 (pool_of_valid_name_is_component "tank/home/user#b1"))). reflexivity.
Defined.

(** ** ErrorClassifier: the remaining classifiers *)

Ltac split_ifs H :=
  repeat match type of H with
         | context [if ?c then _ else _] => destruct c
         end.

Lemma handleErrList'_raises (ret : Z) (errlist : list (string * Z)) (names : list string)
    (cls : lzc_batch) (mapper : Z -> option string -> mapped) :
  ret <> 0 -> _handleErrList' ret errlist names cls mapper <> Returns.
Proof.
  intros Hret. apply Z.eqb_neq in Hret. unfold _handleErrList'. rewrite Hret.
  destruct errlist.
  - destruct (mapper ret _); discriminate.
  - destruct (collect_mapped _ _); discriminate.
Qed.

(** X7.  Each of the ten classifiers from [lzc_destroy_snaps_xlate_errors]
    to [lzc_receive_xlate_error] returns normally exactly when the status
    is zero: a non-zero status always ends in a raised exception. *)
Theorem remaining_classifiers_return_iff_zero (ret : Z) :
  (forall errlist snaps, lzc_destroy_snaps_xlate_errors ret errlist snaps = Returns <-> ret = 0) /\
  (forall errlist bookmarks,
     lzc_bookmark_xlate_errors ret errlist bookmarks = Returns <-> ret = 0) /\
  (forall fsname, lzc_get_bookmarks_xlate_error ret fsname = Returns <-> ret = 0) /\
  (forall errlist bookmarks,
     lzc_destroy_bookmarks_xlate_errors ret errlist bookmarks = Returns <-> ret = 0) /\
  (forall firstsnap lastsnap,
     lzc_snaprange_space_xlate_error ret firstsnap lastsnap = Returns <-> ret = 0) /\
  (forall errlist holds, lzc_hold_xlate_errors ret errlist holds = Returns <-> ret = 0) /\
  (forall snapname, lzc_get_holds_xlate_error ret snapname = Returns <-> ret = 0) /\
  (forall snapname fromsnap, lzc_send_xlate_error ret snapname fromsnap = Returns <-> ret = 0) /\
  (forall snapname fromsnap,
     lzc_send_space_xlate_error ret snapname fromsnap = Returns <-> ret = 0) /\
  (forall snapname origin, lzc_receive_xlate_error ret snapname origin = Returns <-> ret = 0).
Proof.
  unfold lzc_destroy_snaps_xlate_errors, lzc_bookmark_xlate_errors,
    lzc_get_bookmarks_xlate_error, lzc_destroy_bookmarks_xlate_errors,
    lzc_snaprange_space_xlate_error, lzc_hold_xlate_errors, lzc_get_holds_xlate_error,
    lzc_send_xlate_error, lzc_send_space_xlate_error, lzc_receive_xlate_error.
  destruct (Z.eqb ret 0) eqn:E.
  - apply Z.eqb_eq in E. repeat split; auto.
  - apply Z.eqb_neq in E.
    repeat split; try (intros; contradiction); intros H; exfalso;
      try (now apply handleErrList'_raises in H);
      try (split_ifs H; first [discriminate H | now apply handleErrList'_raises in H]).
Qed.

(** X8.  On the cross-device status with an incremental source,
    [lzc_send_xlate_error] and [lzc_send_space_xlate_error] raise
    pools-differ when the two names lie in different pools and
    snapshot-mismatch otherwise, in particular whenever the two names
    have the same filesystem part; ["pool1/fs@s1"] against
    ["pool2/fs@s2"] is pools-differ.  Without a source the status is
    not interpreted. *)
Theorem send_cross_device (snapname fromsnap : string) :
  let expected :=
    if String.eqb (_pool_name fromsnap) (_pool_name snapname)
    then Raises (RaisedLzc (SnapshotMismatch (Some snapname)))
    else Raises (RaisedLzc (Known (PoolsDiffer (Some snapname)))) in
  lzc_send_xlate_error EXDEV snapname (Some fromsnap) = expected /\
  lzc_send_space_xlate_error EXDEV snapname (Some fromsnap) = expected /\
  (_fs_name fromsnap = _fs_name snapname ->
     lzc_send_xlate_error EXDEV snapname (Some fromsnap)
     = Raises (RaisedLzc (SnapshotMismatch (Some snapname)))) /\
  lzc_send_xlate_error EXDEV "pool2/fs@s2" (Some "pool1/fs@s1")
    = Raises (RaisedLzc (Known (PoolsDiffer (Some "pool2/fs@s2")))) /\
  lzc_send_xlate_error EXDEV snapname None = Raises (RaisedIOError EXDEV) /\
  lzc_send_space_xlate_error EXDEV snapname None
    = Raises (RaisedLzc (Known (genericException EXDEV (Some snapname)
                                  "Failed to estimate backup stream size"))).
Proof.
  cbv zeta. unfold lzc_send_xlate_error, lzc_send_space_xlate_error. simpl.
  repeat split.
  - now destruct (String.eqb (_pool_name fromsnap) (_pool_name snapname)).
  - now destruct (String.eqb (_pool_name fromsnap) (_pool_name snapname)).
  - intros Hfs.
    rewrite <- (pool_of_fs_name fromsnap), Hfs, pool_of_fs_name.
    now rewrite String.eqb_refl.
Qed.

Lemma send_cross_device_witness :
  _fs_name "tank/data@monday" = _fs_name "tank/data@tuesday" /\
  lzc_send_xlate_error EXDEV "tank/data@tuesday" (Some "tank/data@monday")
  = Raises (RaisedLzc (SnapshotMismatch (Some "tank/data@tuesday"))).
Proof.
  split; [reflexivity |].
  apply (proj1 (proj2 (proj2 (send_cross_device "tank/data@tuesday" "tank/data@monday")))).
  reflexivity.
Defined.

(** X9.  On the invalid-argument status [lzc_snaprange_space_xlate_error]
    decides in the order syntax, length, pool consistency, with
    snapshot-mismatch where the other classifiers have property-invalid;
    within a stage the first snapshot is reported before the last one. *)
Theorem snaprange_einval_in_order (firstsnap lastsnap : string) :
  lzc_snaprange_space_xlate_error EINVAL firstsnap lastsnap
  = Raises (RaisedLzc
      match einval_order (_is_valid_snap_name firstsnap && _is_valid_snap_name lastsnap)
                         (fits firstsnap && fits lastsnap)
                         (String.eqb (_pool_name firstsnap) (_pool_name lastsnap)) with
      | name_invalid =>
          Known (NameInvalid
                   (Some (if _is_valid_snap_name firstsnap then lastsnap else firstsnap)))
      | name_too_long =>
          Known (NameTooLong (Some (if fits firstsnap then lastsnap else firstsnap)))
      | pools_differ => Known (PoolsDiffer (Some lastsnap))
      | property_invalid => SnapshotMismatch (Some lastsnap)
      end).
Proof.
  unfold lzc_snaprange_space_xlate_error, einval_order. simpl. rewrite !ltb_fits.
  destruct (_is_valid_snap_name firstsnap), (_is_valid_snap_name lastsnap),
    (fits firstsnap), (fits lastsnap),
    (String.eqb (_pool_name firstsnap) (_pool_name lastsnap)); reflexivity.
Qed.



Lemma first_invalid_spec (valid : string -> bool) (names : list string) :
  match first_invalid valid names with
  | Some b =>
      exists before after,
        names = (before ++ b :: after)%list /\
        forallb valid before = true /\ valid b = false
  | None => forallb valid names = true
  end.
Proof.
  unfold first_invalid. induction names as [| n names IH]; simpl; [reflexivity |].
  destruct (valid n) eqn:E; simpl.
  - destruct (List.filter _ names) as [| b rest].
    + exact IH.
    + destruct IH as (before & after & -> & Hb & Hv).
      exists (n :: before), after. simpl. now rewrite E, Hb.
  - exists [], names. auto.
Qed.

(** X11.  A list-level invalid-argument failure (an empty item map and
    not exactly one target) makes [lzc_hold_xlate_errors] and
    [lzc_bookmark_xlate_errors] report the first target, in order, that
    the snapshot (bookmark) validator refuses, as name-invalid; when every
    target is valid the generic failure with no name is reported.  The
    batch failure holds this one entry and the suppressed count 0. *)
Theorem list_level_failure_names_first_invalid_target
    (holds bookmarks : list (string * string)) :
  (List.length holds <> 1%nat ->
   lzc_hold_xlate_errors EINVAL [] holds
   = Raises (RaisedBatch HoldFailure
       [match first_invalid _is_valid_snap_name (List.map fst holds) with
        | Some b => Known (NameInvalid (Some b))
        | None => Known (genericException EINVAL None "Failed to hold snapshot")
        end] 0)) /\
  (List.length bookmarks <> 1%nat ->
   lzc_bookmark_xlate_errors EINVAL [] bookmarks
   = Raises (RaisedBatch BookmarkFailure
       [match first_invalid _is_valid_bmark_name (List.map fst bookmarks) with
        | Some b => Known (NameInvalid (Some b))
        | None => Known (genericException EINVAL None "Failed to create bookmark")
        end] 0)) /\
  (forall valid names b,
     first_invalid valid names = Some b ->
     exists before after,
       names = (before ++ b :: after)%list /\
       forallb valid before = true /\ valid b = false) /\
  (forall valid names, first_invalid valid names = None -> forallb valid names = true).
Proof.
  split; [| split; [| split]].
  - intros Hlen. unfold lzc_hold_xlate_errors, _handleErrList'. simpl.
    assert (Hname : match List.map fst holds with [n] => Some n | _ => None end = None).
    { destruct holds as [| a [| b t]]; simpl in *; congruence. }
    rewrite Hname. unfold hold_map. simpl.
    now destruct (first_invalid _ _).
  - intros Hlen. unfold lzc_bookmark_xlate_errors, _handleErrList'. simpl.
    assert (Hname : match List.map fst bookmarks with [n] => Some n | _ => None end = None).
    { destruct bookmarks as [| a [| b t]]; simpl in *; congruence. }
    rewrite Hname. unfold bookmark_map. simpl.
    now destruct (first_invalid _ _).
  - intros valid names b H. pose proof (first_invalid_spec valid names) as Hs.
    now rewrite H in Hs.
  - intros valid names H. pose proof (first_invalid_spec valid names) as Hs.
    now rewrite H in Hs.
Qed.

Lemma list_level_failure_names_first_invalid_target_witness :
  List.length [("tank/a@s", "keep"); ("tank/b", "keep"); ("tank/c@@", "keep")] <> 1%nat /\
  lzc_hold_xlate_errors EINVAL []
    [("tank/a@s", "keep"); ("tank/b", "keep"); ("tank/c@@", "keep")]
  = Raises (RaisedBatch HoldFailure [Known (NameInvalid (Some "tank/b"))] 0).
Proof.
  split; [discriminate |].
  apply (proj1 (list_level_failure_names_first_invalid_target
                  [("tank/a@s", "keep"); ("tank/b", "keep"); ("tank/c@@", "keep")] [])).
  discriminate.
Defined.

(** X12.  An item whose name is not a key of [holds] makes the mapper of
    [lzc_hold_xlate_errors] raise [KeyError] for every status but the
    cross-device one, and the [KeyError], not a hold failure, leaves the
    classifier. *)
Theorem hold_item_missing_from_holds
    (ret err : Z) (name : string) (holds : list (string * string)) :
  dict_lookup name holds = None ->
  truthy name = true ->
  name <> "N_MORE_ERRORS" ->
  err <> EXDEV ->
  ret <> 0 -> ret <> EBADF ->
  hold_map holds err (Some name) = MapperKeyError /\
  lzc_hold_xlate_errors ret [(name, err)] holds = Raises RaisedKeyError.
Proof.
  intros Hmiss Htruthy Hname Herr Hret Hbadf.
  assert (Hmap : hold_map holds err (Some name) = MapperKeyError).
  { unfold hold_map. apply Z.eqb_neq in Herr. rewrite Herr. simpl.
    rewrite Htruthy, Hmiss. now destruct (Z.eqb err EINVAL). }
  split; [exact Hmap |].
  unfold lzc_hold_xlate_errors, _handleErrList'.
  apply Z.eqb_neq in Hret, Hbadf. rewrite Hret, Hbadf. unfold dict_remove. simpl.
  apply String.eqb_neq in Hname. rewrite Hname. simpl. now rewrite Hmap.
Qed.

Lemma hold_item_missing_from_holds_witness :
  dict_lookup "tank/b@s" [("tank/a@s", "keep")] = None /\
  truthy "tank/b@s" = true /\
  "tank/b@s" <> "N_MORE_ERRORS" /\
  ENOENT <> EXDEV /\ EINVAL <> 0 /\ EINVAL <> EBADF /\
  hold_map [("tank/a@s", "keep")] ENOENT (Some "tank/b@s") = MapperKeyError /\
  lzc_hold_xlate_errors EINVAL [("tank/b@s", ENOENT)] [("tank/a@s", "keep")]
  = Raises RaisedKeyError.
Proof.
  split; [reflexivity |]. split; [reflexivity |]. split; [discriminate |].
  split; [discriminate |]. split; [discriminate |]. split; [discriminate |].
  apply (hold_item_missing_from_holds EINVAL ENOENT "tank/b@s" [("tank/a@s", "keep")]);
    first [reflexivity | discriminate].
Defined.

Lemma forallb_eqb_all_equal (p0 : string) (l : list string) :
  forallb (fun x => String.eqb x p0) l = true <-> (forall x, In x l -> x = p0).
Proof.
  rewrite List.forallb_forall. split; intros H x Hx.
  - now apply String.eqb_eq, H.
  - apply String.eqb_eq. now apply H.
Qed.

(** X13.  On the cross-device status the mapper of
    [lzc_snapshot_xlate_errors] answers pools-differ exactly when two of
    the requested snapshots lie in different pools, and
    duplicate-snapshots otherwise. *)
Theorem snapshot_cross_device (snaps : list string) (name : option string) :
  (snapshot_map snaps EXDEV name = Ok (ObjFailure (PoolsDiffer name)) <->
   exists a b, In a snaps /\ In b snaps /\ _pool_name a <> _pool_name b) /\
  (snapshot_map snaps EXDEV name = Ok (ObjFailure (DuplicateSnapshots name)) <->
   forall a b, In a snaps -> In b snaps -> _pool_name a = _pool_name b).
Proof.
  unfold snapshot_map. simpl.
  destruct snaps as [| s0 rest]; simpl.
  - split; split; try discriminate; try reflexivity.
    + intros (a & _ & [] & _).
    + intros _ a b [].
  - rewrite String.eqb_refl. simpl.
    destruct (forallb (fun x => String.eqb x (_pool_name s0)) (List.map _pool_name rest))
      eqn:E.
    + rewrite forallb_eqb_all_equal in E.
      assert (Hall : forall a, In a (s0 :: rest) -> _pool_name a = _pool_name s0).
      { intros a [<- | Ha]; [reflexivity |]. apply E. now apply List.in_map. }
      split; split; try discriminate; try reflexivity.
      * intros (a & b & Ha & Hb & Hne). exfalso. apply Hne.
        now rewrite (Hall a Ha), (Hall b Hb).
      * intros _ a b Ha Hb. now rewrite (Hall a Ha), (Hall b Hb).
    + split; split; try discriminate; try reflexivity.
      * intros _.
        assert (Hex : exists b, In b rest /\ _pool_name b <> _pool_name s0).
        { clear -E. induction rest as [| r rest IH]; simpl in E; [discriminate |].
          destruct (String.eqb (_pool_name r) (_pool_name s0)) eqn:Er.
          - destruct (IH E) as (b & Hb & Hne). exists b. split; [now right | exact Hne].
          - apply String.eqb_neq in Er. exists r. split; [now left | exact Er]. }
        destruct Hex as (b & Hb & Hne).
        exists b, s0. split; [now right |]. split; [now left | exact Hne].
      * intros Hall. exfalso.
        assert (forallb (fun x => String.eqb x (_pool_name s0)) (List.map _pool_name rest)
                = true); [| congruence].
        apply forallb_eqb_all_equal. intros x Hx.
        apply List.in_map_iff in Hx as (b & <- & Hb).
        apply Hall; [now right | now left].
Qed.

(** ** ErrorClassifier: a mapper that raises *)

Lemma collect_errors_raises (mapper : Z -> option string -> res pyobj)
    (before after : list (string * Z)) (name : string) (err : Z) (e : exn) :
  Forall (fun item => exists o, mapper (snd item) (Some (fst item)) = Ok o) before ->
  mapper err (Some name) = Raise e ->
  collect_errors mapper (before ++ (name, err) :: after)%list = Raise e.
Proof.
  intros Hb He. induction Hb as [| [n0 e0] before [o Ho] _ IH]; simpl.
  - now rewrite He.
  - simpl in Ho. now rewrite Ho, IH.
Qed.

(** X24.  When the mapper raises for an item, [_handleErrList] lets that
    exception out instead of the batch failure: the exception of the
    first item, in order, for which the mapper raises.  So an item of
    [lzc_release_xlate_errors] with the too-big status whose name is not
    among the holds ends the classifier with [KeyError]. *)
Theorem mapper_exception_leaves_handleErrList
    (ret : Z) (names : list string) (cls : batch_class)
    (mapper : Z -> option string -> res pyobj)
    (before after : list (string * Z)) (name : string) (err : Z) (e : exn) :
  ret <> 0 ->
  Forall (fun item => fst item <> "N_MORE_ERRORS" /\
                      exists o, mapper (snd item) (Some (fst item)) = Ok o) before ->
  name <> "N_MORE_ERRORS" ->
  mapper err (Some name) = Raise e ->
  _handleErrList ret (before ++ (name, err) :: after)%list names cls mapper = Raise e.
Proof.
  intros Hret Hb Hname He. apply Z.eqb_neq in Hret.
  unfold _handleErrList. rewrite Hret.
  assert (Hcollect :
    collect_errors mapper (dict_remove "N_MORE_ERRORS" (before ++ (name, err) :: after)%list)
    = Raise e).
  { unfold dict_remove. rewrite List.filter_app. simpl.
    apply String.eqb_neq in Hname. rewrite Hname. simpl.
    apply collect_errors_raises; [| exact He].
    clear -Hb. induction Hb as [| [n0 e0] before [Hn Ho] _ IH]; simpl; [constructor |].
    simpl in Hn. apply String.eqb_neq in Hn. rewrite Hn. simpl. now constructor. }
  destruct (before ++ (name, err) :: after)%list eqn:E.
  - now destruct before.
  - now rewrite Hcollect.
Qed.

Lemma mapper_exception_leaves_handleErrList_witness :
  EINVAL <> 0 /\
  release_map [("tank/a@s", ["keep"])] E2BIG (Some "tank/b@s") = Raise KeyError /\
  lzc_release_xlate_errors EINVAL [("tank/a@s", ENOENT); ("tank/b@s", E2BIG)]
    [("tank/a@s", ["keep"])]
  = Raise KeyError.
Proof.
  split; [discriminate |]. split; [reflexivity |].
  unfold lzc_release_xlate_errors. simpl.
  apply (mapper_exception_leaves_handleErrList EINVAL ["tank/a@s"] HoldReleaseFailure
           (release_map [("tank/a@s", ["keep"])])
           [("tank/a@s", ENOENT)] [] "tank/b@s" E2BIG KeyError).
  - discriminate.
  - constructor; [| constructor]. split; [discriminate | now eexists].
  - discriminate.
  - reflexivity.
Defined.
